(** * sig-storage-local-static-provisioner: [pkg/common/common.go]

    A shallow embedding of the helper functions of package [common] of the
    local static provisioner, and the properties of the specification that
    are decided by them.

    Conventions of the embedding.
    - A Go [string] is a sequence of bytes: [string] of the Standard Library.
    - A Go [map[string]V] is a [gmap string V].  A nil map and an empty map
      are both read as the empty map: no modelled code writes to a map that
      may be nil, and reading or ranging over one behaves like the empty map.
    - A slice is a [list]; where the code tells a nil slice from an empty
      one ([BlockCleanerCommand]) the field is an [option (list _)], [None]
      being nil.
    - A pointer that may be nil is an [option]; dereferencing nil panics, and
      a function that can panic returns an [option] whose [None] is the panic.
    - A value of interface type [error] is an [option error], [None] being
      nil. *)

From Stdlib Require Import ZArith Lia Ascii.
From stdpp Require Import base option list strings gmap.

(** ** Errors *)

(** An error value.  [Errorf format args] is the value built by
    [fmt.Errorf(format, args...)], kept as its format string and operands;
    [ExternalError msg] is an error produced outside this package (a probe of
    the host, the YAML decoder, [filepath.Rel]), identified by its message. *)
Inductive error : Type :=
| ExternalError (msg : string)
| Errorf (format : string) (args : list fmt_arg)
with fmt_arg : Type :=
| ArgString (s : string)
| ArgError (e : error).

(** ** The Go standard library, as far as package [common] calls it *)

Module strings.
(** Package [strings]. *)

(** [strings.HasPrefix(s, prefix)] *)
Definition HasPrefix (s prefix : string) : bool := String.prefix prefix s.

(** The scan behind [Split]: [cur] is the piece being read; [skip] counts
    the bytes of a separator found at an earlier position that are still to
    be passed over. *)
Fixpoint splitFrom (sep : string) (skip : nat) (cur s : string) : list string :=
  match s with
  | EmptyString => [cur]
  | String c rest =>
      match skip with
      | S k => splitFrom sep k cur rest
      | O =>
          if String.prefix sep s
          then cur :: splitFrom sep (String.length sep - 1) "" rest
          else splitFrom sep 0 (cur +:+ String c "") rest
      end
  end.

(** [strings.Split(s, sep)] for a non-empty [sep]: the pieces of [s] between
    the occurrences of [sep], found from left to right, without overlap.
    (With an empty [sep] Go splits after each UTF-8 sequence; no call of the
    package does that.) *)
Definition Split (s sep : string) : list string := splitFrom sep 0 "" s.

(** The scan behind [Replace], with the same [skip] counter. *)
Fixpoint replaceFrom (old new : string) (skip : nat) (s : string) : string :=
  match s with
  | EmptyString => ""
  | String c rest =>
      match skip with
      | S k => replaceFrom old new k rest
      | O =>
          if String.prefix old s
          then new +:+ replaceFrom old new (String.length old - 1) rest
          else String c (replaceFrom old new 0 rest)
      end
  end.

(** [strings.Replace(s, old, new, -1)] for a non-empty [old]: every
    occurrence of [old], found from left to right without overlap, becomes
    [new]. *)
Definition ReplaceAll (s old new : string) : string := replaceFrom old new 0 s.

(** [strings.Join(elems, sep)] *)
Definition Join (elems : list string) (sep : string) : string :=
  String.concat sep elems.

(** [strings.Count(s, substr)] for a one-byte [substr]. *)
Fixpoint CountByte (s : string) (c : ascii) : nat :=
  match s with
  | EmptyString => 0
  | String d rest => (if decide (d = c) then 1 else 0) + CountByte rest c
  end.
End strings.

Module fnv.
(** Package [hash/fnv]: the 32-bit FNV-1a hash.  The state of the hash is the
    [uint32] sum so far. *)
Definition offset32 : Z := 2166136261.
Definition prime32 : Z := 16777619.

(** [fnv.New32a()] *)
Definition New32a : Z := offset32.

(** One byte of the method [Write] of [sum32a]: [hash ^= uint32(c); hash *= prime32], the
    product wrapping around at 32 bits. *)
Definition writeByte (hash : Z) (c : ascii) : Z :=
  (Z.lxor hash (Z.of_N (Ascii.N_of_ascii c)) * prime32) mod 2 ^ 32.

(** [h.Write(data)] *)
Fixpoint Write (hash : Z) (data : string) : Z :=
  match data with
  | EmptyString => hash
  | String c rest => Write (writeByte hash c) rest
  end.

(** [h.Sum32()] *)
Definition Sum32 (hash : Z) : Z := hash.
End fnv.

Module fmt.
(** Package [fmt]: the verb [%x] on an unsigned integer. *)
Definition ldigits : string := "0123456789abcdefx".

(** [ldigits[d]] *)
Definition digit (d : Z) : ascii :=
  default "0"%char (String.get (Z.to_nat d) ldigits).

(** The loop of [fmtInteger] in base 16: the digits are written from the
    least significant one, to the left of [acc].  [fuel] bounds the number of
    iterations; a [uint32] needs at most seven before the last digit. *)
Fixpoint fmtHex (fuel : nat) (u : Z) (acc : string) : string :=
  match fuel with
  | O => String (digit u) acc
  | S fuel' =>
      if decide (16 ≤ u)%Z
      then fmtHex fuel' (Z.shiftr u 4) (String (digit (Z.land u 15)) acc)
      else String (digit u) acc
  end.

(** [fmt.Sprintf("%x", u)] for [u] of type [uint32] *)
Definition Sprintf_x (u : Z) : string := fmtHex 7 u "".
End fmt.

Module filepath.
(** Package [path/filepath] as built for a Unix host: the separator is [/],
    there are no volume names, and two names are the same word when they are
    equal. *)
Definition Separator : ascii := "/"%char.

(** One path element met by [Clean].  [out] holds the elements kept so far,
    the last one first.  An empty element (between two separators) and [.]
    are dropped; [..] removes the element before it when that one is not
    itself [..], is kept at the start of a path that is not rooted, and is
    dropped at the start of a rooted one; any other element is kept. *)
Definition cleanStep (rooted : bool) (out : list string) (elem : string)
    : list string :=
  if decide (elem = "") then out
  else if decide (elem = ".") then out
  else if decide (elem = "..") then
    match out with
    | top :: below =>
        if decide (top = "..") then (if rooted then out else ".." :: out)
        else below
    | [] => if rooted then out else ".." :: out
    end
  else elem :: out.

(** [filepath.Clean(path)], element by element: the shortest path equivalent
    to [path] by purely lexical processing, ["."] for an empty result. *)
Definition Clean (path : string) : string :=
  if decide (path = "") then "."
  else
    let rooted := strings.HasPrefix path "/" in
    let out := fold_left (cleanStep rooted) (strings.Split path "/") [] in
    if rooted then "/" +:+ strings.Join (rev out) "/"
    else match out with
         | [] => "."
         | _ :: _ => strings.Join (rev out) "/"
         end.

(** [filepath.Join(elem...)]: the elements from the first non-empty one on,
    joined by separators and cleaned; the empty string when there is none. *)
Fixpoint Join (elem : list string) : string :=
  match elem with
  | [] => ""
  | e :: rest =>
      if decide (e = "") then Join rest else Clean (strings.Join elem "/")
  end.

(** The element at the start of [s], and what follows its separator. *)
Fixpoint cut (s : string) : string * string :=
  match s with
  | EmptyString => ("", "")
  | String c rest =>
      if decide (c = Separator) then ("", rest)
      else let '(e, r) := cut rest in (String c e, r)
  end.

(** The loop of [Rel] over the elements of the two cleaned paths: it passes
    the elements they have in common at the start.  The result is what is
    left of [base], the element of [base] at which the paths part, and what
    is left of [targ]; when [targ] is used up first, that element is the
    next one of [base].  Each turn shortens [base], so its length is fuel
    enough. *)
Fixpoint relLoop (fuel : nat) (base targ : string) : string * string * string :=
  match fuel with
  | O => (base, (cut base).1, targ)
  | S fuel' =>
      if decide (base = "" ∨ targ = "") then (base, (cut base).1, targ)
      else
        let '(eb, base') := cut base in
        let '(et, targ') := cut targ in
        if decide (et = eb) then relLoop fuel' base' targ'
        else (base, eb, targ)
  end.

Fixpoint dotdots (seps : nat) : string :=
  match seps with
  | O => ""
  | S n => "/.." +:+ dotdots n
  end.

(** [filepath.Rel(basepath, targpath)]: the path that leads from the cleaned
    [basepath] to the cleaned [targpath].  There is none, and an error is
    returned, when one path is rooted and the other is not, and when the
    element at which [base] parts from [targ] is [..]: what a [..] has left
    cannot be named. *)
Definition Rel (basepath targpath : string) : string * option error :=
  let cannot :=
    ExternalError
      ("Rel: can't make " +:+ targpath +:+ " relative to " +:+ basepath) in
  let base := Clean basepath in
  let targ := Clean targpath in
  if decide (targ = base) then (".", None)
  else
    let base := if decide (base = ".") then "" else base in
    let baseSlashed := strings.HasPrefix base "/" in
    let targSlashed := strings.HasPrefix targ "/" in
    if decide (baseSlashed ≠ targSlashed) then ("", Some cannot)
    else
      let '(b, e, t) := relLoop (String.length base) base targ in
      if decide (e = "..") then ("", Some cannot)
      else if decide (b ≠ "") then
        let seps := strings.CountByte b Separator in
        (".." +:+ dotdots seps +:+ (if decide (t ≠ "") then "/" +:+ t else ""),
         None)
      else (t, None).
End filepath.

(** ** Constants of package [common] and of the Kubernetes API *)

Definition AnnProvisionedBy : string := "pv.kubernetes.io/provisioned-by".
Definition DefaultBlockCleanerCommand : string := "/scripts/quick_reset.sh".
Definition AlphaStorageNodeAffinityAnnotation : string :=
  "volume.alpha.kubernetes.io/node-affinity".
Definition DefaultVolumeMode : string := "Filesystem".
Definition DefaultNamePattern : string := "*".

Module v1.
(** [k8s.io/api/core/v1]: the constants and the fields of the API types
    that package [common] reads or writes. *)
Definition LabelHostname : string := "kubernetes.io/hostname".
Definition ResourceStorage : string := "storage".
Definition ReadWriteOnce : string := "ReadWriteOnce".
Definition PersistentVolumeBlock : string := "Block".
Definition PersistentVolumeFilesystem : string := "Filesystem".

Record NodeSelectorRequirement : Type := {
  Key : string;
  Operator : string;
  Values : list string
}.

Record NodeSelectorTerm : Type := {
  MatchExpressions : list NodeSelectorRequirement;
  MatchFields : list NodeSelectorRequirement
}.

Record NodeSelector : Type := {
  NodeSelectorTerms : list NodeSelectorTerm
}.

Record VolumeNodeAffinity : Type := {
  Required : option NodeSelector
}.

Record LocalVolumeSource : Type := {
  Path : string;
  FSType : option string
}.
End v1.

Definition NodeLabelKey : string := v1.LabelHostname.

Module resource.
(** [k8s.io/apimachinery/pkg/api/resource]: a quantity as the pair that
    [NewQuantity] is given. *)
Inductive Format : Type := DecimalExponent | BinarySI | DecimalSI.

Record Quantity : Type := {
  value : Z;
  format : Format
}.

Definition NewQuantity (value : Z) (format : Format) : Quantity :=
  {| value := value; format := format |}.
End resource.

Module OwnerReference.
(** [metav1.OwnerReference] *)
Record t : Type := {
  APIVersion : string;
  Kind : string;
  Name : string;
  UID : string;
  Controller : option bool;
  BlockOwnerDeletion : option bool
}.
End OwnerReference.

Module ObjectMeta.
(** [metav1.ObjectMeta] *)
Record t : Type := {
  Name : string;
  Labels : gmap string string;
  Annotations : gmap string string;
  OwnerReferences : list OwnerReference.t
}.
End ObjectMeta.

Module PersistentVolumeSpec.
(** [v1.PersistentVolumeSpec].  [Local] is the field of the embedded
    [PersistentVolumeSource], which Go promotes to [pv.Spec.Local]. *)
Record t : Type := {
  PersistentVolumeReclaimPolicy : string;
  Capacity : gmap string resource.Quantity;
  Local : option v1.LocalVolumeSource;
  AccessModes : list string;
  StorageClassName : string;
  VolumeMode : option string;
  MountOptions : list string;
  NodeAffinity : option v1.VolumeNodeAffinity
}.
End PersistentVolumeSpec.

Module PersistentVolume.
(** [v1.PersistentVolume] *)
Record t : Type := {
  ObjectMeta : ObjectMeta.t;
  Spec : PersistentVolumeSpec.t
}.

(** [pv.Spec.AccessModes = modes] *)
Definition set_AccessModes (modes : list string) (pv : t) : t :=
  let s := Spec pv in
  {| ObjectMeta := ObjectMeta pv;
     Spec := {|
       PersistentVolumeSpec.PersistentVolumeReclaimPolicy :=
         PersistentVolumeSpec.PersistentVolumeReclaimPolicy s;
       PersistentVolumeSpec.Capacity := PersistentVolumeSpec.Capacity s;
       PersistentVolumeSpec.Local := PersistentVolumeSpec.Local s;
       PersistentVolumeSpec.AccessModes := modes;
       PersistentVolumeSpec.StorageClassName :=
         PersistentVolumeSpec.StorageClassName s;
       PersistentVolumeSpec.VolumeMode := PersistentVolumeSpec.VolumeMode s;
       PersistentVolumeSpec.MountOptions :=
         PersistentVolumeSpec.MountOptions s;
       PersistentVolumeSpec.NodeAffinity :=
         PersistentVolumeSpec.NodeAffinity s |} |}.

(** [pv.Spec.NodeAffinity = affinity] *)
Definition set_NodeAffinity (affinity : option v1.VolumeNodeAffinity)
    (pv : t) : t :=
  let s := Spec pv in
  {| ObjectMeta := ObjectMeta pv;
     Spec := {|
       PersistentVolumeSpec.PersistentVolumeReclaimPolicy :=
         PersistentVolumeSpec.PersistentVolumeReclaimPolicy s;
       PersistentVolumeSpec.Capacity := PersistentVolumeSpec.Capacity s;
       PersistentVolumeSpec.Local := PersistentVolumeSpec.Local s;
       PersistentVolumeSpec.AccessModes := PersistentVolumeSpec.AccessModes s;
       PersistentVolumeSpec.StorageClassName :=
         PersistentVolumeSpec.StorageClassName s;
       PersistentVolumeSpec.VolumeMode := PersistentVolumeSpec.VolumeMode s;
       PersistentVolumeSpec.MountOptions :=
         PersistentVolumeSpec.MountOptions s;
       PersistentVolumeSpec.NodeAffinity := affinity |} |}.

(** [pv.ObjectMeta.Annotations = annotations] *)
Definition set_Annotations (annotations : gmap string string) (pv : t) : t :=
  let m := ObjectMeta pv in
  {| ObjectMeta := {|
       ObjectMeta.Name := ObjectMeta.Name m;
       ObjectMeta.Labels := ObjectMeta.Labels m;
       ObjectMeta.Annotations := annotations;
       ObjectMeta.OwnerReferences := ObjectMeta.OwnerReferences m |};
     Spec := Spec pv |}.

(** [pv.ObjectMeta.OwnerReferences = refs] *)
Definition set_OwnerReferences (refs : list OwnerReference.t) (pv : t) : t :=
  let m := ObjectMeta pv in
  {| ObjectMeta := {|
       ObjectMeta.Name := ObjectMeta.Name m;
       ObjectMeta.Labels := ObjectMeta.Labels m;
       ObjectMeta.Annotations := ObjectMeta.Annotations m;
       ObjectMeta.OwnerReferences := refs |};
     Spec := Spec pv |}.
End PersistentVolume.

(** ** The structs of package [common] *)

Module MountConfig.
Record t : Type := {
  HostDir : string;
  MountDir : string;
  BlockCleanerCommand : option (list string);
  VolumeMode : string;
  AccessMode : string;
  FsType : string;
  NamePattern : string;
  Selector : list v1.NodeSelectorTerm
}.

(** [config.BlockCleanerCommand = command] *)
Definition set_BlockCleanerCommand (command : option (list string)) (config : t) : t :=
  {| HostDir := HostDir config; MountDir := MountDir config;
     BlockCleanerCommand := command; VolumeMode := VolumeMode config;
     AccessMode := AccessMode config; FsType := FsType config;
     NamePattern := NamePattern config; Selector := Selector config |}.

(** [config.MountDir = dir] *)
Definition set_MountDir (dir : string) (config : t) : t :=
  {| HostDir := HostDir config; MountDir := dir;
     BlockCleanerCommand := BlockCleanerCommand config;
     VolumeMode := VolumeMode config; AccessMode := AccessMode config;
     FsType := FsType config; NamePattern := NamePattern config;
     Selector := Selector config |}.

(** [config.HostDir = dir] *)
Definition set_HostDir (dir : string) (config : t) : t :=
  {| HostDir := dir; MountDir := MountDir config;
     BlockCleanerCommand := BlockCleanerCommand config;
     VolumeMode := VolumeMode config; AccessMode := AccessMode config;
     FsType := FsType config; NamePattern := NamePattern config;
     Selector := Selector config |}.

(** [config.VolumeMode = mode] *)
Definition set_VolumeMode (mode : string) (config : t) : t :=
  {| HostDir := HostDir config; MountDir := MountDir config;
     BlockCleanerCommand := BlockCleanerCommand config; VolumeMode := mode;
     AccessMode := AccessMode config; FsType := FsType config;
     NamePattern := NamePattern config; Selector := Selector config |}.

(** [config.NamePattern = pattern] *)
Definition set_NamePattern (pattern : string) (config : t) : t :=
  {| HostDir := HostDir config; MountDir := MountDir config;
     BlockCleanerCommand := BlockCleanerCommand config;
     VolumeMode := VolumeMode config; AccessMode := AccessMode config;
     FsType := FsType config; NamePattern := pattern;
     Selector := Selector config |}.
End MountConfig.

Module LocalPVConfig.
Record t : Type := {
  Name : string;
  HostPath : string;
  Capacity : Z;
  StorageClass : string;
  ReclaimPolicy : string;
  ProvisionerName : string;
  UseAlphaAPI : bool;
  AffinityAnn : string;
  NodeAffinity : option v1.VolumeNodeAffinity;
  VolumeMode : string;
  AccessMode : string;
  MountOptions : list string;
  FsType : option string;
  Labels : gmap string string;
  SetPVOwnerRef : bool;
  OwnerReference : option OwnerReference.t
}.
End LocalPVConfig.

Module Toleration.
(** [v1.Toleration] *)
Record t : Type := {
  Key : string;
  Operator : string;
  Value : string;
  Effect : string;
  TolerationSeconds : option Z
}.
End Toleration.

Module ProvisionerConfiguration.
(** [MinResyncPeriod] is a [metav1.Duration], a number of nanoseconds. *)
Record t : Type := {
  StorageClassConfig : gmap string MountConfig.t;
  NodeLabelsForPV : list string;
  UseAlphaAPI : bool;
  UseJobForCleaning : bool;
  JobTolerations : list Toleration.t;
  MinResyncPeriod : Z;
  UseNodeNameOnly : bool;
  LabelsForPV : gmap string string;
  SetPVOwnerRef : bool;
  RemoveNodeNotReadyTaint : bool;
  ProvisionerNotReadyNodeTaintKey : string
}.

(** [provisionerConfig.StorageClassConfig = classes]: what the assignments
    [provisionerConfig.StorageClassConfig[class] = config] leave in the
    struct. *)
Definition set_StorageClassConfig (classes : gmap string MountConfig.t)
    (provisionerConfig : t) : t :=
  {| StorageClassConfig := classes;
     NodeLabelsForPV := NodeLabelsForPV provisionerConfig;
     UseAlphaAPI := UseAlphaAPI provisionerConfig;
     UseJobForCleaning := UseJobForCleaning provisionerConfig;
     JobTolerations := JobTolerations provisionerConfig;
     MinResyncPeriod := MinResyncPeriod provisionerConfig;
     UseNodeNameOnly := UseNodeNameOnly provisionerConfig;
     LabelsForPV := LabelsForPV provisionerConfig;
     SetPVOwnerRef := SetPVOwnerRef provisionerConfig;
     RemoveNodeNotReadyTaint := RemoveNodeNotReadyTaint provisionerConfig;
     ProvisionerNotReadyNodeTaintKey :=
       ProvisionerNotReadyNodeTaintKey provisionerConfig |}.
End ProvisionerConfiguration.

Module VolumeUtil.
(** The two probes of the interface [util.VolumeUtil] that package [common]
    calls: each answers for a path with a boolean and an error. *)
Record t : Type := {
  IsDir : string → bool * option error;
  IsBlock : string → bool * option error
}.
End VolumeUtil.

Module FileInfo.
(** [os.FileInfo], as far as [LoadProvisionerConfigs] reads it. *)
Record t : Type := {
  Name : string;
  IsDir : bool
}.
End FileInfo.

Module path.
(** Package [path]: its [Join] is the algorithm of [filepath.Join] with the
    separator [/] on every host. *)
Definition Join (elem : list string) : string := filepath.Join elem.
End path.

(** The line feed, and the text [": \n"] that follows a key. *)
Definition LF : string := String "010"%char "".
Definition keySuffix : string := ": " +:+ LF.

(** ** [CreateLocalPVSpec] *)

(** [CreateLocalPVSpec] builds the object, then patches it in three steps.
    The last step dereferences [config.OwnerReference], which panics when the
    pointer is nil: the result is [None] then. *)
Definition CreateLocalPVSpec (config : LocalPVConfig.t)
    : option PersistentVolume.t :=
  let pv : PersistentVolume.t := {|
    PersistentVolume.ObjectMeta := {|
      ObjectMeta.Name := LocalPVConfig.Name config;
      ObjectMeta.Labels := LocalPVConfig.Labels config;
      ObjectMeta.Annotations :=
        {[ AnnProvisionedBy := LocalPVConfig.ProvisionerName config ]};
      ObjectMeta.OwnerReferences := [] |};
    PersistentVolume.Spec := {|
      PersistentVolumeSpec.PersistentVolumeReclaimPolicy :=
        LocalPVConfig.ReclaimPolicy config;
      PersistentVolumeSpec.Capacity :=
        {[ v1.ResourceStorage :=
             resource.NewQuantity (LocalPVConfig.Capacity config)
               resource.BinarySI ]};
      PersistentVolumeSpec.Local := Some {|
        v1.Path := LocalPVConfig.HostPath config;
        v1.FSType := LocalPVConfig.FsType config |};
      PersistentVolumeSpec.AccessModes := [LocalPVConfig.AccessMode config];
      PersistentVolumeSpec.StorageClassName :=
        LocalPVConfig.StorageClass config;
      PersistentVolumeSpec.VolumeMode := Some (LocalPVConfig.VolumeMode config);
      PersistentVolumeSpec.MountOptions := LocalPVConfig.MountOptions config;
      PersistentVolumeSpec.NodeAffinity := None |} |} in
  let pv :=
    if decide (LocalPVConfig.AccessMode config = "")
    then PersistentVolume.set_AccessModes [v1.ReadWriteOnce] pv
    else pv in
  let pv :=
    if LocalPVConfig.UseAlphaAPI config
    then PersistentVolume.set_Annotations
           (<[ AlphaStorageNodeAffinityAnnotation :=
                 LocalPVConfig.AffinityAnn config ]>
              (ObjectMeta.Annotations (PersistentVolume.ObjectMeta pv))) pv
    else PersistentVolume.set_NodeAffinity (LocalPVConfig.NodeAffinity config) pv in
  if LocalPVConfig.SetPVOwnerRef config
  then match LocalPVConfig.OwnerReference config with
       | Some owner => Some (PersistentVolume.set_OwnerReferences [owner] pv)
       | None => None
       end
  else Some pv.

(** ** [IsLocalPVWithStorageClass] *)

Fixpoint matchesAny (name : string) (storageClassNames : list string) : bool :=
  match storageClassNames with
  | [] => false
  | storageClassName :: rest =>
      if decide (name = storageClassName) then true else matchesAny name rest
  end.

Definition IsLocalPVWithStorageClass (pv : PersistentVolume.t)
    (storageClassNames : list string) : bool :=
  match PersistentVolumeSpec.Local (PersistentVolume.Spec pv) with
  | None => false
  | Some _ =>
      matchesAny (PersistentVolumeSpec.StorageClassName (PersistentVolume.Spec pv))
        storageClassNames
  end.


(** ** [GetContainerPath] *)

(** The relative path from the host directory to the volume, joined to the
    mount directory.  [pv.Spec.Local.Path] dereferences [pv.Spec.Local]: a nil
    local source panics ([None]).  The [filepath] functions are those of a
    Unix host. *)
Definition GetContainerPath (pv : PersistentVolume.t) (config : MountConfig.t)
    : option (string * option error) :=
  match PersistentVolumeSpec.Local (PersistentVolume.Spec pv) with
  | None => None
  | Some local =>
      let '(relativePath, err) :=
        filepath.Rel (MountConfig.HostDir config) (v1.Path local) in
      match err with
      | Some err =>
          Some ("", Some (Errorf "Could not get relative path for pv %q: %v"
                            [ArgString (ObjectMeta.Name (PersistentVolume.ObjectMeta pv));
                             ArgError err]))
      | None =>
          Some (filepath.Join [MountConfig.MountDir config; relativePath], None)
      end
  end.

(** ** [GenerateMountName] *)

Definition GenerateMountName (mount : MountConfig.t) : string :=
  let h := fnv.New32a in
  let h := fnv.Write h (MountConfig.HostDir mount) in
  let h := fnv.Write h (MountConfig.MountDir mount) in
  "mount-" +:+ fmt.Sprintf_x (fnv.Sum32 h).

(** ** [UserConfigFromProvisionerConfig] *)

Module Node.
(** [v1.Node], as far as it is named here. *)
Record t : Type := {
  Name : string;
  UID : string;
  Labels : gmap string string
}.
End Node.

Module UserConfig.
Record t : Type := {
  Node : option Node.t;
  DiscoveryMap : gmap string MountConfig.t;
  NodeLabelsForPV : list string;
  UseAlphaAPI : bool;
  UseJobForCleaning : bool;
  Namespace : string;
  JobContainerImage : string;
  JobTolerations : list Toleration.t;
  MinResyncPeriod : Z;
  UseNodeNameOnly : bool;
  LabelsForPV : gmap string string;
  SetPVOwnerRef : bool;
  RemoveNodeNotReadyTaint : bool;
  ProvisionerNotReadyNodeTaintKey : string
}.
End UserConfig.

Definition UserConfigFromProvisionerConfig (node : option Node.t)
    (namespace jobImage : string) (config : ProvisionerConfiguration.t)
    : UserConfig.t := {|
  UserConfig.Node := node;
  UserConfig.DiscoveryMap := ProvisionerConfiguration.StorageClassConfig config;
  UserConfig.NodeLabelsForPV := ProvisionerConfiguration.NodeLabelsForPV config;
  UserConfig.UseAlphaAPI := ProvisionerConfiguration.UseAlphaAPI config;
  UserConfig.UseJobForCleaning := ProvisionerConfiguration.UseJobForCleaning config;
  UserConfig.MinResyncPeriod := ProvisionerConfiguration.MinResyncPeriod config;
  UserConfig.UseNodeNameOnly := ProvisionerConfiguration.UseNodeNameOnly config;
  UserConfig.Namespace := namespace;
  UserConfig.JobContainerImage := jobImage;
  UserConfig.JobTolerations := ProvisionerConfiguration.JobTolerations config;
  UserConfig.LabelsForPV := ProvisionerConfiguration.LabelsForPV config;
  UserConfig.SetPVOwnerRef := ProvisionerConfiguration.SetPVOwnerRef config;
  UserConfig.RemoveNodeNotReadyTaint :=
    ProvisionerConfiguration.RemoveNodeNotReadyTaint config;
  UserConfig.ProvisionerNotReadyNodeTaintKey :=
    ProvisionerConfiguration.ProvisionerNotReadyNodeTaintKey config
|}.

(** ** [VolumeConfigToConfigMapData] *)

(** The keys of the configuration map. *)
Definition ProvisonerStorageClassConfig : string := "storageClassMap".
Definition ProvisionerNodeLabelsForPV : string := "nodeLabelsForPV".
Definition ProvisionerUseAlphaAPI : string := "useAlphaAPI".

Module yaml.
(** The values that package [common] hands to [yaml.Marshal]. *)
Inductive value : Type :=
| Classes (classes : gmap string MountConfig.t)
| Strings (items : list string)
| Bool (b : bool).
End yaml.

Section Marshal.

(** [yaml.Marshal(v)] of [sigs.k8s.io/yaml]: the text and the error. *)
Variable yaml_Marshal : yaml.value → string * option error.

(** The map that is returned and the error; the map is nil (read as empty)
    with an error. *)
Definition VolumeConfigToConfigMapData (config : ProvisionerConfiguration.t)
    : gmap string string * option error :=
  let configMapData : gmap string string := ∅ in
  let '(val, err) :=
    yaml_Marshal (yaml.Classes (ProvisionerConfiguration.StorageClassConfig config)) in
  match err with
  | Some err =>
      (∅, Some (Errorf "unable to Marshal volume config: %v" [ArgError err]))
  | None =>
      let configMapData := <[ProvisonerStorageClassConfig := val]> configMapData in
      match
        if decide (0 < length (ProvisionerConfiguration.NodeLabelsForPV config))
        then
          let '(nodeLabels, nlErr) :=
            yaml_Marshal
              (yaml.Strings (ProvisionerConfiguration.NodeLabelsForPV config)) in
          match nlErr with
          | Some nlErr =>
              inl (Errorf "unable to Marshal node label: %v" [ArgError nlErr])
          | None =>
              inr (<[ProvisionerNodeLabelsForPV := nodeLabels]> configMapData)
          end
        else inr configMapData
      with
      | inl err => (∅, Some err)
      | inr configMapData =>
          let '(ver, err) :=
            yaml_Marshal (yaml.Bool (ProvisionerConfiguration.UseAlphaAPI config)) in
          match err with
          | Some err =>
              (∅, Some (Errorf "unable to Marshal API version config: %v"
                          [ArgError err]))
          | None => (<[ProvisionerUseAlphaAPI := ver]> configMapData, None)
          end
      end
  end.

End Marshal.

(** ** [AnyNodeExists] *)

Module labels.
(** Package [k8s.io/apimachinery/pkg/labels]: a requirement as the triple
    [NewRequirement] is given, and a selector as its list of requirements. *)
Inductive Operator : Type := Equals | In | NotEquals | NotIn | Exists | DoesNotExist.

Record Requirement : Type := {
  key : string;
  operator : Operator;
  strValues : list string
}.

(** [labels.NewSelector().Add(req)]: the selector that holds the one
    requirement [req]. *)
Definition SelectorOf (req : Requirement) : list Requirement := [req].
End labels.

Module NodeLister.
(** The two methods of [corelisters.NodeLister]. *)
Record t : Type := {
  Get : string → option Node.t * option error;
  List : list labels.Requirement → list Node.t * option error
}.
End NodeLister.

Section Nodes.

(** [errors.IsNotFound(err)] of [k8s.io/apimachinery/pkg/api/errors]. *)
Variable IsNotFound : error → bool.

(** [labels.NewRequirement(key, op, vals)]: the requirement, or the error of
    its validation. *)
Variable labels_NewRequirement :
  string → labels.Operator → list string → error + labels.Requirement.

Fixpoint AnyNodeExists (nodeLister : NodeLister.t) (nodeNames : list string)
    : bool :=
  match nodeNames with
  | [] => false
  | nodeName :: rest =>
      let '(_, err) := NodeLister.Get nodeLister nodeName in
      if match err with
         | None => true
         | Some err => negb (IsNotFound err)
         end
      then true
      else
        match labels_NewRequirement NodeLabelKey labels.Equals [nodeName] with
        | inl _ => true
        | inr req =>
            let '(nodes, err) :=
              NodeLister.List nodeLister (labels.SelectorOf req) in
            if match err with
               | Some _ => true
               | None => bool_decide (0 < length nodes)
               end
            then true
            else AnyNodeExists nodeLister rest
        end
  end.

End Nodes.

(** ** The start of the process *)

(** Modelled from the spec: the two outcomes of reading the static
    configuration in the Starting state, a fatal error on which the process
    exits, or the configuration it goes on with. *)
Inductive startup : Type :=
| FatalConfig (err : error)
| Configured (provisionerConfig : ProvisionerConfiguration.t).

(** Modelled from the spec: the first step of the Starting state of the
    provisioner, whose code (the command that calls
    [LoadProvisionerConfigs]) is not among the sources.  The spec has the
    process read its static configuration when it starts, and has the
    errors of that as fatal at startup: they surface to process exit, with
    an exit code that is not zero.  [loaded] is what loading the
    configuration returned: the struct and the error. *)
Definition Starting (loaded : ProvisionerConfiguration.t * option error)
    : startup :=
  match loaded.2 with
  | Some err => FatalConfig err
  | None => Configured loaded.1
  end.

(** ** Vocabulary of the properties *)

(** The annotations of a volume. *)
Definition annotationsOf (pv : PersistentVolume.t) : gmap string string :=
  ObjectMeta.Annotations (PersistentVolume.ObjectMeta pv).

(** The one configuration on which [CreateLocalPVSpec] panics: an owner
    reference is asked for and the pointer to it is nil. *)
Definition configPanics (config : LocalPVConfig.t) : Prop :=
  LocalPVConfig.SetPVOwnerRef config = true ∧
  LocalPVConfig.OwnerReference config = None.

(** The 32-bit FNV-1a hash of a string. *)
Definition fnv1a32 (s : string) : Z := fnv.Sum32 (fnv.Write fnv.New32a s).

(** The value of a lowercase hexadecimal digit. *)
Definition hexDigit (c : ascii) : option Z :=
  let n := Z.of_N (N_of_ascii c) in
  if decide (48 ≤ n ≤ 57)%Z then Some (n - 48)%Z
  else if decide (97 ≤ n ≤ 102)%Z then Some (n - 87)%Z
  else None.

(** The number that a string of lowercase hexadecimal digits denotes, after
    the digits of [acc]. *)
Fixpoint hexValueFrom (acc : Z) (s : string) : option Z :=
  match s with
  | EmptyString => Some acc
  | String c rest =>
      match hexDigit c with
      | Some d => hexValueFrom (16 * acc + d) rest
      | None => None
      end
  end.

Definition hexValue (s : string) : option Z := hexValueFrom 0 s.

(** A string without separator. *)
Fixpoint sepFree (s : string) : Prop :=
  match s with
  | EmptyString => True
  | String c rest => c ≠ filepath.Separator ∧ sepFree rest
  end.

(** A path element that [Clean] keeps as it is. *)
Definition real (e : string) : Prop :=
  sepFree e ∧ e ≠ "" ∧ e ≠ "." ∧ e ≠ "..".

(** The shape of the elements [Clean] has kept, the last one first: real
    elements above [..] elements, and no [..] at all in a rooted path. *)
Definition canonical (rooted : bool) (out : list string) : Prop :=
  ∃ reals ups,
    out = reals ++ ups ∧ Forall real reals ∧ Forall (λ e, e = "..") ups
    ∧ (rooted = true → ups = []).

(** The elements [Clean] keeps of a path, and the path it makes of them. *)
Definition stackOf (rooted : bool) (path : string) : list string :=
  fold_left (filepath.cleanStep rooted) (strings.Split path "/") [].

Definition render (rooted : bool) (out : list string) : string :=
  if rooted then "/" +:+ strings.Join (rev out) "/"
  else match out with
       | [] => "."
       | _ :: _ => strings.Join (rev out) "/"
       end.

(** A path that is not empty, is relative, and leaves no [..] when cleaned. *)
Definition below (path : string) : Prop :=
  path ≠ "" ∧ strings.HasPrefix path "/" = false ∧ ".." ∉ stackOf false path.



(** A string without the byte [c]. *)
Fixpoint byteFree (c : ascii) (s : string) : Prop :=
  match s with
  | EmptyString => True
  | String d rest => d ≠ c ∧ byteFree c rest
  end.

(** A lowercase letter or a digit. *)
Definition alnum (c : ascii) : Prop :=
  let n := Z.of_N (N_of_ascii c) in
  (48 ≤ n ≤ 57)%Z ∨ (97 ≤ n ≤ 122)%Z.

(** A DNS label, as Kubernetes wants the name of a volume of a pod to be: at
    most 63 bytes, each a lowercase letter, a digit or [-], the first and
    the last a letter or a digit. *)
Definition dns1123Label (s : string) : Prop :=
  let bytes := String.list_ascii_of_string s in
  1 ≤ length bytes ≤ 63
  ∧ Forall (λ c, alnum c ∨ c = "-"%char) bytes
  ∧ (∀ c, head bytes = Some c → alnum c)
  ∧ (∀ c, last bytes = Some c → alnum c).

(** A name that [AnyNodeExists] finds no node for: [Get] answers "not found",
    the requirement on the host name label is valid, and [List] finds no node
    with that label and reports no error. *)
Definition nodeAbsent (IsNotFound : error → bool)
    (labels_NewRequirement :
       string → labels.Operator → list string → error + labels.Requirement)
    (nodeLister : NodeLister.t) (nodeName : string) : Prop :=
  (∃ err, (NodeLister.Get nodeLister nodeName).2 = Some err
          ∧ IsNotFound err = true)
  ∧ ∃ req, labels_NewRequirement NodeLabelKey labels.Equals [nodeName] = inr req
           ∧ NodeLister.List nodeLister (labels.SelectorOf req) = ([], None).

(** The names of the entries of a directory that [LoadProvisionerConfigs]
    reads: those that are no directory and are not named [..data]. *)
Definition configFiles (files : list FileInfo.t) : list string :=
  FileInfo.Name <$>
    filter (λ file, FileInfo.IsDir file = false ∧ FileInfo.Name file ≠ "..data")
      files.

(** A storage class that discovery can run with: both directories, a volume
    mode that exists, a name pattern and a cleaner command. *)
Definition ready (config : MountConfig.t) : Prop :=
  MountConfig.HostDir config ≠ ""
  ∧ MountConfig.MountDir config ≠ ""
  ∧ (MountConfig.VolumeMode config = "Filesystem"
     ∨ MountConfig.VolumeMode config = "Block")
  ∧ MountConfig.NamePattern config ≠ ""
  ∧ ∃ arg command, MountConfig.BlockCleanerCommand config = Some (arg :: command).


(** ** Sample inputs *)

(** A map visited in the order of its list of entries. *)
Definition sampleRange (V : Type) (m : gmap string V) : list (string * V) :=
  map_to_list m.

(** A storage class as a configuration file gives it, with only the two
    directories set. *)
Definition rawFast : MountConfig.t := {|
  MountConfig.HostDir := "/mnt/fast";
  MountConfig.MountDir := "/mnt/fast";
  MountConfig.BlockCleanerCommand := None;
  MountConfig.VolumeMode := "";
  MountConfig.AccessMode := "";
  MountConfig.FsType := "";
  MountConfig.NamePattern := "";
  MountConfig.Selector := []
|}.

(** The same class once configured on a Linux host. *)
Definition configuredFast : MountConfig.t := {|
  MountConfig.HostDir := "/mnt/fast";
  MountConfig.MountDir := "/mnt/fast";
  MountConfig.BlockCleanerCommand := Some ["/scripts/quick_reset.sh"];
  MountConfig.VolumeMode := "Filesystem";
  MountConfig.AccessMode := "";
  MountConfig.FsType := "";
  MountConfig.NamePattern := "*";
  MountConfig.Selector := []
|}.

Definition sampleParsed : ProvisionerConfiguration.t := {|
  ProvisionerConfiguration.StorageClassConfig := {[ "fast" := rawFast ]};
  ProvisionerConfiguration.NodeLabelsForPV := [];
  ProvisionerConfiguration.UseAlphaAPI := false;
  ProvisionerConfiguration.UseJobForCleaning := false;
  ProvisionerConfiguration.JobTolerations := [];
  ProvisionerConfiguration.MinResyncPeriod := 0;
  ProvisionerConfiguration.UseNodeNameOnly := false;
  ProvisionerConfiguration.LabelsForPV := ∅;
  ProvisionerConfiguration.SetPVOwnerRef := false;
  ProvisionerConfiguration.RemoveNodeNotReadyTaint := false;
  ProvisionerConfiguration.ProvisionerNotReadyNodeTaintKey := ""
|}.

Definition sampleConfigured : ProvisionerConfiguration.t :=
  ProvisionerConfiguration.set_StorageClassConfig
    {[ "fast" := configuredFast ]} sampleParsed.

(** A decoder that reads every document as [sampleParsed]. *)
Definition sampleDecoder (text : string)
    (provisionerConfig : ProvisionerConfiguration.t)
    : ProvisionerConfiguration.t * option error :=
  (sampleParsed, None).

Definition sampleData : gmap string string :=
  {[ "storageClassMap" :=
       "fast:" +:+ LF +:+ "  hostDir: /mnt/fast" +:+ LF
       +:+ "  mountDir: /mnt/fast" ]}.

(** Probes of a host where the path is a block device that [IsDir] cannot
    read. *)
Definition sampleUtil : VolumeUtil.t := {|
  VolumeUtil.IsDir := λ _, (false, Some (ExternalError "permission denied"));
  VolumeUtil.IsBlock := λ _, (true, None)
|}.

Definition sampleLocalPVConfig : LocalPVConfig.t := {|
  LocalPVConfig.Name := "local-pv-1";
  LocalPVConfig.HostPath := "/mnt/fast/vol1";
  LocalPVConfig.Capacity := 107374182400;
  LocalPVConfig.StorageClass := "fast";
  LocalPVConfig.ReclaimPolicy := "Delete";
  LocalPVConfig.ProvisionerName := "local-volume-provisioner-n1";
  LocalPVConfig.UseAlphaAPI := false;
  LocalPVConfig.AffinityAnn := "";
  LocalPVConfig.NodeAffinity := None;
  LocalPVConfig.VolumeMode := "Filesystem";
  LocalPVConfig.AccessMode := "";
  LocalPVConfig.MountOptions := [];
  LocalPVConfig.FsType := None;
  LocalPVConfig.Labels := ∅;
  LocalPVConfig.SetPVOwnerRef := false;
  LocalPVConfig.OwnerReference := None
|}.

Definition rootConfig : MountConfig.t := {|
  MountConfig.HostDir := "/";
  MountConfig.MountDir := "/m";
  MountConfig.BlockCleanerCommand := None;
  MountConfig.VolumeMode := "Filesystem";
  MountConfig.AccessMode := "";
  MountConfig.FsType := "";
  MountConfig.NamePattern := "*";
  MountConfig.Selector := []
|}.

Definition volumeAt (path : string) : PersistentVolume.t := {|
  PersistentVolume.ObjectMeta := {|
    ObjectMeta.Name := "local-pv-1";
    ObjectMeta.Labels := ∅;
    ObjectMeta.Annotations := ∅;
    ObjectMeta.OwnerReferences := [] |};
  PersistentVolume.Spec := {|
    PersistentVolumeSpec.PersistentVolumeReclaimPolicy := "Delete";
    PersistentVolumeSpec.Capacity := ∅;
    PersistentVolumeSpec.Local := Some {| v1.Path := path; v1.FSType := None |};
    PersistentVolumeSpec.AccessModes := ["ReadWriteOnce"];
    PersistentVolumeSpec.StorageClassName := "fast";
    PersistentVolumeSpec.VolumeMode := Some "Filesystem";
    PersistentVolumeSpec.MountOptions := [];
    PersistentVolumeSpec.NodeAffinity := None |} |}.

Definition fastConfig : MountConfig.t := {|
  MountConfig.HostDir := "/mnt/fast";
  MountConfig.MountDir := "/mnt/disks";
  MountConfig.BlockCleanerCommand := None;
  MountConfig.VolumeMode := "Filesystem";
  MountConfig.AccessMode := "";
  MountConfig.FsType := "";
  MountConfig.NamePattern := "*";
  MountConfig.Selector := []
|}.

(** A volume that is not a local one. *)
Definition nonLocalVolume : PersistentVolume.t := {|
  PersistentVolume.ObjectMeta := {|
    ObjectMeta.Name := "nfs-pv-1";
    ObjectMeta.Labels := ∅;
    ObjectMeta.Annotations := ∅;
    ObjectMeta.OwnerReferences := [] |};
  PersistentVolume.Spec := {|
    PersistentVolumeSpec.PersistentVolumeReclaimPolicy := "Retain";
    PersistentVolumeSpec.Capacity := ∅;
    PersistentVolumeSpec.Local := None;
    PersistentVolumeSpec.AccessModes := ["ReadWriteOnce"];
    PersistentVolumeSpec.StorageClassName := "fast";
    PersistentVolumeSpec.VolumeMode := Some "Filesystem";
    PersistentVolumeSpec.MountOptions := [];
    PersistentVolumeSpec.NodeAffinity := None |} |}.

(** Two configurations whose directories differ and concatenate to the same
    string. *)
Definition splitEarly : MountConfig.t :=
  MountConfig.set_MountDir "ab" (MountConfig.set_HostDir "/" rawFast).
Definition splitLate : MountConfig.t :=
  MountConfig.set_MountDir "b" (MountConfig.set_HostDir "/a" rawFast).

(** A value that is no YAML, and a decoder that fails on every document and
    leaves the struct as it was. *)
Definition brokenData : gmap string string :=
  {[ "storageClassMap" := "fast: [" ]}.

Definition failingDecoder (text : string)
    (provisionerConfig : ProvisionerConfiguration.t)
    : ProvisionerConfiguration.t * option error :=
  (provisionerConfig,
   Some (ExternalError "yaml: line 2: did not find expected node content")).

(** A decoder that reads every document as [sampleConfigured]. *)
Definition configuredDecoder (text : string)
    (provisionerConfig : ProvisionerConfiguration.t)
    : ProvisionerConfiguration.t * option error :=
  (sampleConfigured, None).

(** A class without mount directory and with a volume mode that does not
    exist, and a decoder that reads every document as that one class. *)
Definition rawSlow : MountConfig.t :=
  MountConfig.set_MountDir "" (MountConfig.set_VolumeMode "Tape" rawFast).

Definition slowDecoder (text : string)
    (provisionerConfig : ProvisionerConfiguration.t)
    : ProvisionerConfiguration.t * option error :=
  (ProvisionerConfiguration.set_StorageClassConfig {[ "slow" := rawSlow ]}
     sampleParsed, None).

(** The class [rawFast] once configured on a Windows host. *)
Definition windowsFast : MountConfig.t :=
  MountConfig.set_MountDir "c:\mnt\fast"
    (MountConfig.set_HostDir "c:\mnt\fast" configuredFast).

(** A marshaller that knows three texts. *)
Definition sampleMarshal (v : yaml.value) : string * option error :=
  match v with
  | yaml.Classes _ => ("fast:" +:+ LF +:+ "  hostDir: /mnt/fast" +:+ LF, None)
  | yaml.Strings _ => ("- topology.kubernetes.io/zone" +:+ LF, None)
  | yaml.Bool b => ((if b then "true" else "false") +:+ LF, None)
  end.

Definition labelledParsed : ProvisionerConfiguration.t := {|
  ProvisionerConfiguration.StorageClassConfig := {[ "fast" := rawFast ]};
  ProvisionerConfiguration.NodeLabelsForPV := ["topology.kubernetes.io/zone"];
  ProvisionerConfiguration.UseAlphaAPI := false;
  ProvisionerConfiguration.UseJobForCleaning := false;
  ProvisionerConfiguration.JobTolerations := [];
  ProvisionerConfiguration.MinResyncPeriod := 0;
  ProvisionerConfiguration.UseNodeNameOnly := false;
  ProvisionerConfiguration.LabelsForPV := ∅;
  ProvisionerConfiguration.SetPVOwnerRef := false;
  ProvisionerConfiguration.RemoveNodeNotReadyTaint := false;
  ProvisionerConfiguration.ProvisionerNotReadyNodeTaintKey := ""
|}.

(** The directory of a mounted configuration map: the link [..data], the
    directory it points to, and one file. *)
Definition sampleFiles : list FileInfo.t := [
  {| FileInfo.Name := "..data"; FileInfo.IsDir := false |};
  {| FileInfo.Name := "..2026_01_01_00_00_00.000000001"; FileInfo.IsDir := true |};
  {| FileInfo.Name := "storageClassMap"; FileInfo.IsDir := false |}
].

Definition sampleReadDir (dirname : string) : list FileInfo.t * option error :=
  (sampleFiles, None).

Definition sampleReadFile (filename : string) : string * option error :=
  if decide (filename = "/etc/provisioner/config/storageClassMap")
  then ("fast:" +:+ LF +:+ "  hostDir: /mnt/fast" +:+ LF
        +:+ "  mountDir: /mnt/fast", None)
  else ("", Some (ExternalError "no such file or directory")).

(** A host where no file can be read. *)
Definition deniedReadFile (filename : string) : string * option error :=
  ("", Some (ExternalError "permission denied")).

(** A client that finds [sampleData] under every name. *)
Definition sampleClient (namespace name : string)
    : gmap string string * option error :=
  (sampleData, None).

(** ** The functions that depend on the host and on the YAML decoder *)

Section Common.

(** [runtime.GOOS], the operating system the program was built for. *)
Variable GOOS : string.

(** [yaml.Unmarshal(text, provisionerConfig)] of [sigs.k8s.io/yaml]: the
    struct as the decoder leaves it, and its error. *)
Variable yaml_Unmarshal :
  string → ProvisionerConfiguration.t →
  ProvisionerConfiguration.t * option error.

(** The order in which a [range] statement visits a map.  Go leaves it
    unspecified: it is some enumeration of the entries of the map. *)
Variable range : ∀ V : Type, gmap string V → list (string * V).
Hypothesis range_entries :
  ∀ (V : Type) (m : gmap string V), range V m ≡ₚ map_to_list m.

(** *** [normalizePath] *)
Definition normalizePath (path : string) : string :=
  if decide (GOOS ≠ "windows") then path
  else
    let normalizedPath := strings.ReplaceAll path "/" "\" in
    if strings.HasPrefix normalizedPath "\"
    then "c:" +:+ normalizedPath
    else normalizedPath.

(** *** [insertSpaces] *)
Definition insertSpaces (original : string) : string :=
  fold_left (λ spaced line, ((spaced +:+ "   ") +:+ line) +:+ LF)
    (strings.Split original LF) "".

(** *** [ConfigMapDataToVolumeConfig] *)

(** The text handed to the decoder: the first loop of the function, over the
    entries of [data] in the order [range] visits them. *)
Definition rawYamlOf (entries : list (string * string)) : string :=
  fold_left (λ rawYaml '(key, val),
               ((rawYaml +:+ key) +:+ keySuffix) +:+ insertSpaces val)
    entries "".

(** The body of the loop over [provisionerConfig.StorageClassConfig], for one
    [class] and its [config]: an error, or the [config] to store back. *)
Definition configureClass (class : string) (config : MountConfig.t)
    : error + MountConfig.t :=
  match
    match MountConfig.BlockCleanerCommand config with
    | None =>
        inr (MountConfig.set_BlockCleanerCommand
               (Some [DefaultBlockCleanerCommand]) config)
    | Some command =>
        if decide (length command < 1)
        then inl (Errorf "Invalid empty block cleaner command for class %v"
                    [ArgString class])
        else inr config
    end
  with
  | inl err => inl err
  | inr config =>
      if decide (MountConfig.MountDir config = "" ∨ MountConfig.HostDir config = "")
      then inl (Errorf "Storage Class %v is misconfigured, missing HostDir or MountDir parameter"
                  [ArgString class])
      else
        let config :=
          MountConfig.set_MountDir (normalizePath (MountConfig.MountDir config)) config in
        let config :=
          MountConfig.set_HostDir (normalizePath (MountConfig.HostDir config)) config in
        let config :=
          if decide (MountConfig.VolumeMode config = "")
          then MountConfig.set_VolumeMode DefaultVolumeMode config
          else config in
        let config :=
          if decide (MountConfig.NamePattern config = "")
          then MountConfig.set_NamePattern DefaultNamePattern config
          else config in
        let volumeMode := MountConfig.VolumeMode config in
        if decide (volumeMode ≠ v1.PersistentVolumeBlock
                   ∧ volumeMode ≠ v1.PersistentVolumeFilesystem)
        then inl (Errorf "unsupported volume mode %s"
                    [ArgString (MountConfig.VolumeMode config)])
        else inr config
  end.

(** The loop itself.  [entries] are the entries still to visit, as they were
    when the loop started: a turn writes only the key it visits, after
    reading it, so later turns see the values of the decoder.  [classes] is
    the map as the turns so far have left it.  The first error ends the loop
    and the function. *)
Fixpoint configureClasses (entries : list (string * MountConfig.t))
    (classes : gmap string MountConfig.t)
    : gmap string MountConfig.t * option error :=
  match entries with
  | [] => (classes, None)
  | (class, config) :: rest =>
      match configureClass class config with
      | inl err => (classes, Some err)
      | inr config => configureClasses rest (<[class := config]> classes)
      end
  end.

(** What follows the call of the decoder, given its result. *)
Definition afterUnmarshal
    (decoded : ProvisionerConfiguration.t * option error)
    : ProvisionerConfiguration.t * option error :=
  let '(provisionerConfig, err) := decoded in
  match err with
  | Some err =>
      (provisionerConfig,
       Some (Errorf "fail to Unmarshal yaml due to: %#v" [ArgError err]))
  | None =>
      let classes := ProvisionerConfiguration.StorageClassConfig provisionerConfig in
      let '(classes, err) := configureClasses (range _ classes) classes in
      (ProvisionerConfiguration.set_StorageClassConfig classes provisionerConfig,
       err)
  end.

(** [ConfigMapDataToVolumeConfig(data, provisionerConfig)]: the struct behind
    the pointer when the function returns, and the error it returns. *)
Definition ConfigMapDataToVolumeConfig (data : gmap string string)
    (provisionerConfig : ProvisionerConfiguration.t)
    : ProvisionerConfiguration.t * option error :=
  let rawYaml := rawYamlOf (range _ data) in
  afterUnmarshal (yaml_Unmarshal rawYaml provisionerConfig).

(** *** [LoadProvisionerConfigs] *)

Section Loader.

(** [ioutil.ReadDir] and [ioutil.ReadFile]: what the host answers for a
    path. *)
Variable ioutil_ReadDir : string → list FileInfo.t * option error.
Variable ioutil_ReadFile : string → string * option error.

(** The loop over the files of the directory: every entry that is not a
    directory and is not named [..data] is read into [data] under its name;
    the first file that cannot be read ends the loop with its error. *)
Fixpoint readConfigFiles (configPath : string) (files : list FileInfo.t)
    (data : gmap string string) : error + gmap string string :=
  match files with
  | [] => inr data
  | file :: rest =>
      if negb (FileInfo.IsDir file) then
        if decide (FileInfo.Name file ≠ "..data") then
          let '(fileContents, err) :=
            ioutil_ReadFile (path.Join [configPath; FileInfo.Name file]) in
          match err with
          | Some err => inl err
          | None =>
              readConfigFiles configPath rest
                (<[FileInfo.Name file := fileContents]> data)
          end
        else readConfigFiles configPath rest data
      else readConfigFiles configPath rest data
  end.

Definition LoadProvisionerConfigs (configPath : string)
    (provisionerConfig : ProvisionerConfiguration.t)
    : ProvisionerConfiguration.t * option error :=
  let '(files, err) := ioutil_ReadDir configPath in
  match err with
  | Some err => (provisionerConfig, Some err)
  | None =>
      match readConfigFiles configPath files ∅ with
      | inl err => (provisionerConfig, Some err)
      | inr data => ConfigMapDataToVolumeConfig data provisionerConfig
      end
  end.

End Loader.

(** *** [GetVolumeConfigFromConfigMap] *)

Section Client.

(** [client.CoreV1().ConfigMaps(namespace).Get(ctx, name, opts)]: the [Data]
    of the configuration map, and the error. *)
Variable getConfigMap : string → string → gmap string string * option error.

Definition GetVolumeConfigFromConfigMap (namespace name : string)
    (provisionerConfig : ProvisionerConfiguration.t)
    : ProvisionerConfiguration.t * option error :=
  let '(data, err) := getConfigMap namespace name in
  match err with
  | Some err => (provisionerConfig, Some err)
  | None => ConfigMapDataToVolumeConfig data provisionerConfig
  end.

End Client.

(** *** [GetVolumeMode] *)
Definition GetVolumeMode (volUtil : VolumeUtil.t) (fullPath : string)
    : string * option error :=
  if decide (GOOS = "windows") then (v1.PersistentVolumeFilesystem, None)
  else
    let '(isdir, errdir) := VolumeUtil.IsDir volUtil fullPath in
    if isdir then (v1.PersistentVolumeFilesystem, None)
    else
      let '(isblk, errblk) := VolumeUtil.IsBlock volUtil fullPath in
      if isblk then (v1.PersistentVolumeBlock, None)
      else
        match errdir, errblk with
        | None, None =>
            ("", Some (Errorf "Skipping file %q: not a directory nor block device"
                         [ArgString fullPath]))
        | Some errdir, _ =>
            ("", Some (Errorf "Directory check for %q failed: %s"
                         [ArgString fullPath; ArgError errdir]))
        | None, Some errblk =>
            ("", Some (Errorf "Block device check for %q failed: %s"
                         [ArgString fullPath; ArgError errblk]))
        end.

(** *** The vocabulary of the properties *)

(** One entry of the document: the key, [": \n"], the indented value. *)
Definition entryText (entry : string * string) : string :=
  entry.1 +:+ ": " +:+ LF +:+ insertSpaces entry.2.

(** One line of an indented value. *)
Definition lineText (line : string) : string := "   " +:+ line +:+ LF.

(** The configurations that the specification calls invalid: an empty
    [MountDir] or [HostDir], a [VolumeMode] that after defaulting is neither
    ["Filesystem"] nor ["Block"], a [BlockCleanerCommand] that is not nil and
    empty. *)
Definition misconfigured (config : MountConfig.t) : Prop :=
  MountConfig.MountDir config = ""
  ∨ MountConfig.HostDir config = ""
  ∨ (let mode := if decide (MountConfig.VolumeMode config = "")
                 then "Filesystem" else MountConfig.VolumeMode config in
     mode ≠ "Filesystem" ∧ mode ≠ "Block")
  ∨ MountConfig.BlockCleanerCommand config = Some [].

(** What the loop stores for a configuration it accepts. *)
Definition configured (config config' : MountConfig.t) : Prop :=
  MountConfig.HostDir config' = normalizePath (MountConfig.HostDir config)
  ∧ MountConfig.MountDir config' = normalizePath (MountConfig.MountDir config)
  ∧ MountConfig.HostDir config ≠ "" ∧ MountConfig.MountDir config ≠ ""
  ∧ MountConfig.VolumeMode config'
    = (if decide (MountConfig.VolumeMode config = "")
       then "Filesystem" else MountConfig.VolumeMode config)
  ∧ (MountConfig.VolumeMode config' = "Filesystem"
     ∨ MountConfig.VolumeMode config' = "Block")
  ∧ MountConfig.NamePattern config'
    = (if decide (MountConfig.NamePattern config = "")
       then "*" else MountConfig.NamePattern config)
  ∧ MountConfig.BlockCleanerCommand config'
    = match MountConfig.BlockCleanerCommand config with
      | None => Some ["/scripts/quick_reset.sh"]
      | Some command => Some command
      end
  ∧ MountConfig.BlockCleanerCommand config ≠ Some []
  ∧ MountConfig.AccessMode config' = MountConfig.AccessMode config
  ∧ MountConfig.FsType config' = MountConfig.FsType config
  ∧ MountConfig.Selector config' = MountConfig.Selector config.

(** The document decoded for [data], and the struct and error the decoder
    gives for it. *)
Definition decoded (data : gmap string string)
    (provisionerConfig : ProvisionerConfiguration.t)
    : ProvisionerConfiguration.t * option error :=
  yaml_Unmarshal (rawYamlOf (range _ data)) provisionerConfig.

(** The storage classes in a struct. *)
Definition classesOf (provisionerConfig : ProvisionerConfiguration.t)
    : gmap string MountConfig.t :=
  ProvisionerConfiguration.StorageClassConfig provisionerConfig.

(** * Properties *)

(** ** Strings *)

Lemma append_cons (x : ascii) (a b : string) :
  String x a +:+ b = String x (a +:+ b).
Proof. reflexivity. Qed.

Lemma append_nil_l (a : string) : "" +:+ a = a.
Proof. reflexivity. Qed.

Lemma append_assoc (a b c : string) : (a +:+ b) +:+ c = a +:+ (b +:+ c).
Proof.
  induction a as [|x a IH]; [reflexivity|]. by rewrite !append_cons, IH.
Qed.

Lemma append_nil_r (a : string) : a +:+ "" = a.
Proof.
  induction a as [|x a IH]; [reflexivity|]. by rewrite append_cons, IH.
Qed.

Lemma concat_cons (x : string) (l : list string) :
  String.concat "" (x :: l) = x +:+ String.concat "" l.
Proof. destruct l; [apply eq_sym, append_nil_r | reflexivity]. Qed.

Lemma fold_left_pointwise {A B : Type} (f g : A → B → A) (l : list B) (acc : A) :
  (∀ a x, f a x = g a x) → fold_left f l acc = fold_left g l acc.
Proof.
  intros Hfg. revert acc. induction l as [|x l IH]; intros acc; simpl.
  - reflexivity.
  - by rewrite Hfg, IH.
Qed.

(** A loop that appends a piece per element builds the concatenation of the
    pieces after what was there before. *)
Lemma fold_left_append {A : Type} (piece : A → string) (l : list A) (acc : string) :
  fold_left (λ acc x, acc +:+ piece x) l acc
  = acc +:+ String.concat "" (piece <$> l).
Proof.
  revert acc. induction l as [|x l IH]; intros acc.
  - symmetry. apply append_nil_r.
  - rewrite fmap_cons, concat_cons. simpl. by rewrite IH, append_assoc.
Qed.

(** ** [CreateLocalPVSpec] *)

Ltac case_config config :=
  unfold CreateLocalPVSpec, configPanics;
  destruct (LocalPVConfig.SetPVOwnerRef config);
    [destruct (LocalPVConfig.OwnerReference config)|];
    try (split; reflexivity).

Lemma CreateLocalPVSpec_returns (config : LocalPVConfig.t) :
  ¬ configPanics config → is_Some (CreateLocalPVSpec config).
Proof.
  intros Hok. revert Hok. case_config config; intros Hok; eauto.
  exfalso. by apply Hok.
Qed.

(** C1. For every [LocalPVConfig], the object returned by [CreateLocalPVSpec]
    carries the annotation ["pv.kubernetes.io/provisioned-by"] with the value
    [config.ProvisionerName].  The call returns an object for every
    configuration but the one that asks for an owner reference and holds a
    nil one, on which the Go code panics. *)
Theorem CreateLocalPVSpec_provisioned_by (config : LocalPVConfig.t) :
  match CreateLocalPVSpec config with
  | Some pv =>
      annotationsOf pv !! "pv.kubernetes.io/provisioned-by"
      = Some (LocalPVConfig.ProvisionerName config)
  | None => configPanics config
  end.
Proof.
  case_config config;
    destruct (LocalPVConfig.UseAlphaAPI config);
    destruct (decide (LocalPVConfig.AccessMode config = ""));
    cbn; unfold AnnProvisionedBy, AlphaStorageNodeAffinityAnnotation;
    by simplify_map_eq.
Qed.

(** C4. With [UseAlphaAPI] the returned object holds [config.AffinityAnn]
    under ["volume.alpha.kubernetes.io/node-affinity"] and its
    [Spec.NodeAffinity] is nil; without it [Spec.NodeAffinity] is
    [config.NodeAffinity] and the annotation is absent. *)
Theorem CreateLocalPVSpec_affinity (config : LocalPVConfig.t) :
  match CreateLocalPVSpec config with
  | Some pv =>
      if LocalPVConfig.UseAlphaAPI config
      then annotationsOf pv !! "volume.alpha.kubernetes.io/node-affinity"
           = Some (LocalPVConfig.AffinityAnn config)
           ∧ PersistentVolumeSpec.NodeAffinity (PersistentVolume.Spec pv) = None
      else PersistentVolumeSpec.NodeAffinity (PersistentVolume.Spec pv)
           = LocalPVConfig.NodeAffinity config
           ∧ annotationsOf pv !! "volume.alpha.kubernetes.io/node-affinity" = None
  | None => configPanics config
  end.
Proof.
  case_config config;
    destruct (LocalPVConfig.UseAlphaAPI config);
    destruct (decide (LocalPVConfig.AccessMode config = ""));
    cbn; unfold AnnProvisionedBy, AlphaStorageNodeAffinityAnnotation;
    split; by simplify_map_eq.
Qed.

(** The access modes of the returned object: the construction puts
    [config.AccessMode] there, and the patch that follows replaces an empty
    one by [ReadWriteOnce]. *)
Lemma CreateLocalPVSpec_access_modes (config : LocalPVConfig.t) :
  match CreateLocalPVSpec config with
  | Some pv =>
      PersistentVolumeSpec.AccessModes (PersistentVolume.Spec pv)
      = if decide (LocalPVConfig.AccessMode config = "")
        then ["ReadWriteOnce"]
        else [LocalPVConfig.AccessMode config]
  | None => configPanics config
  end.
Proof.
  case_config config;
    destruct (LocalPVConfig.UseAlphaAPI config);
    destruct (decide (LocalPVConfig.AccessMode config = ""));
    reflexivity.
Qed.

(** ** [IsLocalPVWithStorageClass] *)

Lemma matchesAny_elem_of (name : string) (storageClassNames : list string) :
  matchesAny name storageClassNames = true ↔ name ∈ storageClassNames.
Proof.
  induction storageClassNames as [|n l IH]; simpl.
  - split; [discriminate | by intros ?%elem_of_nil].
  - destruct (decide (name = n)) as [->|Hne].
    + split; [intros _; left | reflexivity].
    + rewrite IH, elem_of_cons. split; [by right | by intros [?|?]].
Qed.

(** C9. [IsLocalPVWithStorageClass] answers true exactly for a volume with a
    local source whose class name is one of the names given; a volume
    without a local source is refused whatever the names; and the answer
    does not depend on the annotations of the volume. *)
Theorem IsLocalPVWithStorageClass_iff (pv : PersistentVolume.t)
    (storageClassNames : list string) (annotations : gmap string string) :
  (IsLocalPVWithStorageClass pv storageClassNames = true
   ↔ PersistentVolumeSpec.Local (PersistentVolume.Spec pv) ≠ None
     ∧ PersistentVolumeSpec.StorageClassName (PersistentVolume.Spec pv)
       ∈ storageClassNames)
  ∧ (PersistentVolumeSpec.Local (PersistentVolume.Spec pv) = None →
     IsLocalPVWithStorageClass pv storageClassNames = false)
  ∧ IsLocalPVWithStorageClass (PersistentVolume.set_Annotations annotations pv)
      storageClassNames
    = IsLocalPVWithStorageClass pv storageClassNames.
Proof.
  unfold IsLocalPVWithStorageClass. simpl.
  destruct (PersistentVolumeSpec.Local (PersistentVolume.Spec pv)) as [local|].
  - rewrite matchesAny_elem_of. split; [split|split].
    + intros Hin. by split.
    + by intros [_ Hin].
    + discriminate.
    + reflexivity.
  - split; [split|split].
    + discriminate.
    + intros [Hlocal _]. by destruct Hlocal.
    + reflexivity.
    + reflexivity.
Qed.

(** ** [GetVolumeMode] *)

(** C6. On a host that is not Windows: a directory is [Filesystem]; failing
    that a block device is [Block], whatever error the directory probe gave;
    failing both the result is an error, the one that says the path is
    neither when no probe failed, else the directory probe's error, else the
    block probe's.  On Windows the result is [Filesystem] for every probe. *)
Theorem GetVolumeMode_cases (volUtil : VolumeUtil.t) (fullPath : string) :
  (GOOS ≠ "windows" →
   (∀ errdir, VolumeUtil.IsDir volUtil fullPath = (true, errdir) →
      GetVolumeMode volUtil fullPath = ("Filesystem", None))
   ∧ (∀ errdir errblk,
        VolumeUtil.IsDir volUtil fullPath = (false, errdir) →
        VolumeUtil.IsBlock volUtil fullPath = (true, errblk) →
        GetVolumeMode volUtil fullPath = ("Block", None))
   ∧ (VolumeUtil.IsDir volUtil fullPath = (false, None) →
      VolumeUtil.IsBlock volUtil fullPath = (false, None) →
      GetVolumeMode volUtil fullPath
      = ("", Some (Errorf "Skipping file %q: not a directory nor block device"
                     [ArgString fullPath])))
   ∧ (∀ errdir errblk,
        VolumeUtil.IsDir volUtil fullPath = (false, Some errdir) →
        VolumeUtil.IsBlock volUtil fullPath = (false, errblk) →
        GetVolumeMode volUtil fullPath
        = ("", Some (Errorf "Directory check for %q failed: %s"
                       [ArgString fullPath; ArgError errdir])))
   ∧ (∀ errblk,
        VolumeUtil.IsDir volUtil fullPath = (false, None) →
        VolumeUtil.IsBlock volUtil fullPath = (false, Some errblk) →
        GetVolumeMode volUtil fullPath
        = ("", Some (Errorf "Block device check for %q failed: %s"
                       [ArgString fullPath; ArgError errblk]))))
  ∧ (GOOS = "windows" →
     ∀ otherUtil : VolumeUtil.t,
       GetVolumeMode otherUtil fullPath = ("Filesystem", None)).
Proof.
  unfold GetVolumeMode. split.
  - intros Hos. destruct (decide (GOOS = "windows")) as [?|_]; [done|].
    repeat split.
    + by intros errdir ->.
    + by intros errdir errblk -> ->.
    + by intros -> ->.
    + by intros errdir errblk -> ->.
    + by intros errblk -> ->.
  - intros Hos otherUtil. by destruct (decide (GOOS = "windows")).
Qed.

(** ** [GenerateMountName] *)

Lemma fnv_Write_append (hash : Z) (a b : string) :
  fnv.Write (fnv.Write hash a) b = fnv.Write hash (a +:+ b).
Proof.
  revert hash. induction a as [|c a IH]; intros hash; simpl; [reflexivity|].
  apply IH.
Qed.

Lemma hexDigit_digit (d : Z) :
  (0 ≤ d < 16)%Z → hexDigit (fmt.digit d) = Some d.
Proof.
  intros Hd.
  assert (Hcases : Z.to_nat d < 16) by lia.
  rewrite <- (Z2Nat.id d) at 2 by lia.
  assert (Hnat : ∀ n, n < 16 →
    hexDigit (fmt.digit (Z.of_nat n)) = Some (Z.of_nat n)).
  { intros n Hn. do 16 (destruct n as [|n]; [reflexivity|]). lia. }
  rewrite <- (Z2Nat.id d) at 1 by lia. by apply Hnat.
Qed.

Lemma fmtHex_value (fuel : nat) (u : Z) (acc : string) :
  (0 ≤ u < 16 ^ Z.of_nat (S fuel))%Z →
  hexValueFrom 0 (fmt.fmtHex fuel u acc) = hexValueFrom u acc.
Proof.
  revert u acc. induction fuel as [|fuel IH]; intros u acc Hu.
  - cbn [fmt.fmtHex hexValueFrom].
    rewrite hexDigit_digit by (change (16 ^ Z.of_nat 1)%Z with 16%Z in Hu; lia).
    f_equal; lia.
  - cbn [fmt.fmtHex]. case_decide as Hbig.
    + rewrite IH.
      * cbn [hexValueFrom]. rewrite hexDigit_digit.
        -- f_equal. rewrite Z.shiftr_div_pow2 by lia.
           change 15%Z with (Z.ones 4). rewrite Z.land_ones by lia.
           change (2 ^ 4)%Z with 16%Z. pose proof (Z.div_mod u 16). lia.
        -- change 15%Z with (Z.ones 4). rewrite Z.land_ones by lia.
           change (2 ^ 4)%Z with 16%Z. apply Z.mod_pos_bound. lia.
      * rewrite Z.shiftr_div_pow2 by lia. change (2 ^ 4)%Z with 16%Z.
        rewrite Nat2Z.inj_succ, Z.pow_succ_r in Hu by lia.
        split; [apply Z.div_pos; lia|].
        apply Z.div_lt_upper_bound; lia.
    + cbn [hexValueFrom]. rewrite hexDigit_digit by lia. f_equal; lia.
Qed.

Lemma Sprintf_x_value (u : Z) :
  (0 ≤ u < 2 ^ 32)%Z → hexValue (fmt.Sprintf_x u) = Some u.
Proof.
  intros Hu. unfold hexValue, fmt.Sprintf_x. rewrite fmtHex_value; [done|].
  change (16 ^ Z.of_nat 8)%Z with (2 ^ 32)%Z. lia.
Qed.

Lemma fnv_Write_range (hash : Z) (data : string) :
  (0 ≤ hash < 2 ^ 32)%Z → (0 ≤ fnv.Write hash data < 2 ^ 32)%Z.
Proof.
  revert hash. induction data as [|c data IH]; intros hash Hh; [done|].
  simpl. apply IH. unfold fnv.writeByte. apply Z.mod_pos_bound. lia.
Qed.

(** C10. The mount name is ["mount-"] followed by the lowercase hexadecimal
    digits of the 32-bit FNV-1a hash of [HostDir ++ MountDir]; so two
    configurations with the same concatenation get the same name. *)
Theorem GenerateMountName_concat (m1 m2 : MountConfig.t) :
  GenerateMountName m1
  = "mount-" +:+ fmt.Sprintf_x
                   (fnv1a32 (MountConfig.HostDir m1 +:+ MountConfig.MountDir m1))
  ∧ hexValue (fmt.Sprintf_x
                (fnv1a32 (MountConfig.HostDir m1 +:+ MountConfig.MountDir m1)))
    = Some (fnv1a32 (MountConfig.HostDir m1 +:+ MountConfig.MountDir m1))
  ∧ (MountConfig.HostDir m1 +:+ MountConfig.MountDir m1
     = MountConfig.HostDir m2 +:+ MountConfig.MountDir m2 →
     GenerateMountName m1 = GenerateMountName m2).
Proof.
  assert (Hform : ∀ m, GenerateMountName m
    = "mount-" +:+ fmt.Sprintf_x
        (fnv1a32 (MountConfig.HostDir m +:+ MountConfig.MountDir m))).
  { intros m. unfold GenerateMountName, fnv1a32.
    by rewrite fnv_Write_append. }
  split; [apply Hform|]. split.
  - apply Sprintf_x_value, fnv_Write_range.
    unfold fnv.New32a, fnv.offset32. lia.
  - intros Heq. by rewrite !Hform, Heq.
Qed.

(** ** The text handed to the decoder *)

Lemma insertSpaces_lines (original : string) :
  insertSpaces original
  = String.concat "" (lineText <$> strings.Split original LF).
Proof.
  unfold insertSpaces.
  rewrite (fold_left_pointwise _ (λ acc x, acc +:+ lineText x)).
  - by rewrite fold_left_append.
  - intros acc line. unfold lineText. by rewrite !append_assoc.
Qed.

Lemma rawYamlOf_entries (entries : list (string * string)) :
  rawYamlOf entries = String.concat "" (entryText <$> entries).
Proof.
  unfold rawYamlOf.
  rewrite (fold_left_pointwise _ (λ acc x, acc +:+ entryText x)).
  - by rewrite fold_left_append.
  - intros acc [key val]. unfold entryText, keySuffix. simpl.
    by rewrite !append_assoc.
Qed.

(** C7. The text decoded by [ConfigMapDataToVolumeConfig] is the
    concatenation, over the entries of the map in the order the loop visits
    them, of the key, [": "], a line feed and [insertSpaces] of the value;
    and [insertSpaces s] is the concatenation, over the pieces of [s] between
    line feeds, of three spaces, the piece and a line feed. *)
Theorem ConfigMapDataToVolumeConfig_document (data : gmap string string)
    (provisionerConfig : ProvisionerConfiguration.t) (s : string) :
  ConfigMapDataToVolumeConfig data provisionerConfig
  = afterUnmarshal
      (yaml_Unmarshal
         (String.concat ""
            ((λ entry, entry.1 +:+ ": " +:+ LF +:+ insertSpaces entry.2)
               <$> range _ data))
         provisionerConfig)
  ∧ range _ data ≡ₚ map_to_list data
  ∧ insertSpaces s
    = String.concat ""
        ((λ line, "   " +:+ line +:+ LF) <$> strings.Split s LF).
Proof.
  split; [|split].
  - unfold ConfigMapDataToVolumeConfig. by rewrite rawYamlOf_entries.
  - apply range_entries.
  - apply insertSpaces_lines.
Qed.

(** ** The validation of the storage classes *)

Ltac case_class config :=
  unfold configureClass;
  destruct (MountConfig.BlockCleanerCommand config)
    as [[|arg command]|] eqn:Hcommand;
  [ destruct (decide (length (@nil string) < 1)) as [_|Hlen];
    [|simpl in Hlen; lia]
  | destruct (decide (length (arg :: command) < 1)) as [Hlen|_];
    [simpl in Hlen; lia|]
  | ];
  [ |
    cbn;
    destruct (decide (MountConfig.MountDir config = "" ∨ MountConfig.HostDir config = ""))
      as [Hdirs|Hdirs];
    [ | cbn;
        destruct (decide (MountConfig.VolumeMode config = "")) as [Hmode|Hmode];
        cbn;
        destruct (decide (MountConfig.NamePattern config = ""))
          as [Hpattern|Hpattern];
        cbn;
        unfold DefaultVolumeMode, DefaultNamePattern,
          DefaultBlockCleanerCommand, v1.PersistentVolumeBlock,
          v1.PersistentVolumeFilesystem;
        case_decide as Hfinal ] .. ].

Lemma configureClass_error_iff (class : string) (config : MountConfig.t) :
  (∃ err, configureClass class config = inl err) ↔ misconfigured config.
Proof.
  unfold misconfigured.
  case_class config; split.
  all: try (intros [err Herr]; try discriminate Herr;
       first [ tauto
             | destruct Hfinal as [_ Hfinal]; by destruct Hfinal
             | right; right; right; reflexivity ]).
  all: try( intros Hbad; try (by eexists); exfalso; cbn in *;
       destruct Hbad as [?|[?|[[? ?]|?]]];
       first [tauto | congruence | discriminate] ).
Qed.

Lemma configureClass_configured (class : string) (config config' : MountConfig.t) :
  configureClass class config = inr config' → configured config config'.
Proof.
  unfold configured.
  case_class config; intros Hok; try discriminate Hok;
    injection Hok as <-; cbn; rewrite ?Hcommand;
    repeat split; try tauto; try congruence;
    destruct (decide (MountConfig.VolumeMode config = "Filesystem"));
    destruct (decide (MountConfig.VolumeMode config = "Block"));
    tauto.
Qed.

Lemma configureClasses_error (entries : list (string * MountConfig.t))
    (classes : gmap string MountConfig.t) :
  is_Some (configureClasses entries classes).2
  ↔ ∃ class config err,
      (class, config) ∈ entries ∧ configureClass class config = inl err.
Proof.
  revert classes. induction entries as [|[class config] rest IH];
    intros classes; simpl.
  - split; [by intros [? ?] | intros (? & ? & ? & []%elem_of_nil & _)].
  - destruct (configureClass class config) as [err|config'] eqn:Hstep; simpl.
    + split; [intros _|by eauto].
      exists class, config, err. split; [left | done].
    + rewrite IH. split.
      * intros (c & cfg & err & Hin & Herr). exists c, cfg, err.
        split; [by right | done].
      * intros (c & cfg & err & Hin & Herr).
        apply elem_of_cons in Hin as [Heq|Hin].
        -- injection Heq as -> ->. congruence.
        -- by exists c, cfg, err.
Qed.

Lemma configureClasses_untouched (entries : list (string * MountConfig.t))
    (classes : gmap string MountConfig.t) (class : string) :
  class ∉ entries.*1 →
  (configureClasses entries classes).1 !! class = classes !! class.
Proof.
  revert classes. induction entries as [|[c cfg] rest IH];
    intros classes Hnot; simpl; [done|].
  rewrite fmap_cons, not_elem_of_cons in Hnot. destruct Hnot as [Hne Hnot].
  destruct (configureClass c cfg) as [err|cfg']; simpl; [done|].
  rewrite IH by done. by rewrite lookup_insert_ne.
Qed.

(** Whatever the loop leaves under a key was there before or is what the
    body made of an entry with that key. *)
Lemma configureClasses_origin (entries : list (string * MountConfig.t))
    (classes : gmap string MountConfig.t) (class : string)
    (config' : MountConfig.t) :
  (configureClasses entries classes).1 !! class = Some config' →
  classes !! class = Some config'
  ∨ ∃ config, (class, config) ∈ entries
              ∧ configureClass class config = inr config'.
Proof.
  revert classes. induction entries as [|[c cfg] rest IH];
    intros classes; simpl; [by left|].
  destruct (configureClass c cfg) as [err|cfg'] eqn:Hstep; simpl; [by left|].
  intros [Hold|(config & Hin & Hcfg)]%IH.
  - destruct (decide (c = class)) as [->|Hne].
    + rewrite lookup_insert_eq in Hold. injection Hold as ->.
      right. exists cfg. split; [left | done].
    + rewrite lookup_insert_ne in Hold by done. by left.
  - right. exists config. split; [by right | done].
Qed.

(** When the loop ends without error, every entry was accepted and the map
    holds what the body made of it. *)
Lemma configureClasses_stored (entries : list (string * MountConfig.t))
    (classes : gmap string MountConfig.t) (class : string)
    (config : MountConfig.t) :
  NoDup entries.*1 →
  (configureClasses entries classes).2 = None →
  (class, config) ∈ entries →
  ∃ config', configureClass class config = inr config'
             ∧ (configureClasses entries classes).1 !! class = Some config'.
Proof.
  revert classes. induction entries as [|[c cfg] rest IH];
    intros classes Hdup Hok Hin; [by apply elem_of_nil in Hin|].
  rewrite fmap_cons in Hdup. apply NoDup_cons in Hdup as [Hfresh Hdup].
  simpl in *.
  destruct (configureClass c cfg) as [err|cfg'] eqn:Hstep; simpl in *;
    [discriminate|].
  apply elem_of_cons in Hin as [Heq|Hin].
  - injection Heq as -> ->. exists cfg'. split; [done|].
    rewrite configureClasses_untouched by done. apply lookup_insert_eq.
  - by apply IH.
Qed.

Lemma range_elem_of {V : Type} (m : gmap string V) (key : string) (val : V) :
  (key, val) ∈ range V m ↔ m !! key = Some val.
Proof. by rewrite range_entries, elem_of_map_to_list. Qed.

Lemma range_NoDup {V : Type} (m : gmap string V) : NoDup (range V m).*1.
Proof. rewrite range_entries. apply NoDup_fst_map_to_list. Qed.

Lemma afterUnmarshal_decoded (provisionerConfig : ProvisionerConfiguration.t) :
  let classes := ProvisionerConfiguration.StorageClassConfig provisionerConfig in
  let looped := configureClasses (range _ classes) classes in
  afterUnmarshal (provisionerConfig, None)
  = (ProvisionerConfiguration.set_StorageClassConfig looped.1 provisionerConfig,
     looped.2).
Proof. simpl. by destruct (configureClasses _ _). Qed.

(** C2, amended.  [ConfigMapDataToVolumeConfig] returns an error exactly
    when the decoder fails, or some storage class of the struct the decoder
    leaves is invalid: an empty [MountDir] or [HostDir], a [VolumeMode] that
    after defaulting is neither ["Filesystem"] nor ["Block"], or a
    [BlockCleanerCommand] that is not nil and empty.  The start of the
    process exits on that error and in no other case, also when the data
    reach the function through [LoadProvisionerConfigs].  A nil
    [BlockCleanerCommand] is no error: when the function returns none, such
    a class holds [["/scripts/quick_reset.sh"]] afterwards. *)
Theorem ConfigMapDataToVolumeConfig_error_iff (data : gmap string string)
    (provisionerConfig : ProvisionerConfiguration.t) :
  (is_Some (ConfigMapDataToVolumeConfig data provisionerConfig).2
   ↔ is_Some (decoded data provisionerConfig).2
     ∨ ∃ class config,
         classesOf (decoded data provisionerConfig).1 !! class = Some config
         ∧ misconfigured config)
  ∧ ((∃ err,
        Starting (ConfigMapDataToVolumeConfig data provisionerConfig)
        = FatalConfig err)
     ↔ is_Some (decoded data provisionerConfig).2
       ∨ ∃ class config,
           classesOf (decoded data provisionerConfig).1 !! class = Some config
           ∧ misconfigured config)
  ∧ (∀ (ioutil_ReadDir : string → list FileInfo.t * option error)
       (ioutil_ReadFile : string → string * option error)
       (configPath : string) (files : list FileInfo.t),
       ioutil_ReadDir configPath = (files, None) →
       readConfigFiles ioutil_ReadFile configPath files ∅ = inr data →
       Starting (LoadProvisionerConfigs ioutil_ReadDir ioutil_ReadFile
                   configPath provisionerConfig)
       = Starting (ConfigMapDataToVolumeConfig data provisionerConfig))
  ∧ ((ConfigMapDataToVolumeConfig data provisionerConfig).2 = None →
     ∀ class config,
       classesOf (decoded data provisionerConfig).1 !! class = Some config →
       MountConfig.BlockCleanerCommand config = None →
       ∃ config',
         classesOf (ConfigMapDataToVolumeConfig data provisionerConfig).1
           !! class = Some config'
         ∧ MountConfig.BlockCleanerCommand config'
           = Some ["/scripts/quick_reset.sh"]).
Proof.
  assert (Hiff : is_Some (ConfigMapDataToVolumeConfig data provisionerConfig).2
                 ↔ is_Some (decoded data provisionerConfig).2
                   ∨ ∃ class config,
                       classesOf (decoded data provisionerConfig).1 !! class
                       = Some config
                       ∧ misconfigured config).
  { unfold decoded, ConfigMapDataToVolumeConfig, classesOf.
    destruct (yaml_Unmarshal _ _) as [parsed [err|]].
    { simpl. split; [by left | by eauto]. }
    rewrite afterUnmarshal_decoded. simpl.
    rewrite configureClasses_error. split.
    - intros (class & config & err & Hin%range_elem_of & Herr).
      right. exists class, config. split; [done|].
      apply (configureClass_error_iff class). by exists err.
    - intros [[? [=]]|(class & config & Hin%range_elem_of
                       & [err Herr]%(configureClass_error_iff class))].
      by exists class, config, err. }
  split; [exact Hiff|]. split; [|split].
  - rewrite <- Hiff. unfold Starting.
    destruct (ConfigMapDataToVolumeConfig data provisionerConfig).2 as [err|].
    + split; by eauto.
    + split; [by intros [? [=]] | by intros [? [=]]].
  - intros ioutil_ReadDir ioutil_ReadFile configPath files Hdir Hfiles.
    unfold LoadProvisionerConfigs. by rewrite Hdir, Hfiles.
  - unfold decoded, ConfigMapDataToVolumeConfig, classesOf.
    destruct (yaml_Unmarshal _ _) as [parsed [err|]]; [discriminate|].
    rewrite afterUnmarshal_decoded. simpl.
    intros Hok class config Hin%range_elem_of Hnil.
    destruct (configureClasses_stored _ _ _ _ (range_NoDup _) Hok Hin)
      as (config' & Hstep & Hlook).
    exists config'. split; [done|].
    apply configureClass_configured in Hstep.
    destruct Hstep as (_ & _ & _ & _ & _ & _ & _ & Hcmd & _).
    by rewrite Hcmd, Hnil.
Qed.

(** A failure of the decoder is returned as an error of its own, and the
    storage classes are not looked at. *)
Lemma ConfigMapDataToVolumeConfig_decoder_error (data : gmap string string)
    (provisionerConfig parsed : ProvisionerConfiguration.t) (err : error) :
  decoded data provisionerConfig = (parsed, Some err) →
  ConfigMapDataToVolumeConfig data provisionerConfig
  = (parsed, Some (Errorf "fail to Unmarshal yaml due to: %#v" [ArgError err])).
Proof.
  unfold decoded, ConfigMapDataToVolumeConfig. by intros ->.
Qed.

(** The caller in this package hands the result on as it is: once the
    files are read, what [LoadProvisionerConfigs] returns is what
    [ConfigMapDataToVolumeConfig] returns for their contents. *)
Lemma LoadProvisionerConfigs_result
    (ioutil_ReadDir : string → list FileInfo.t * option error)
    (ioutil_ReadFile : string → string * option error)
    (configPath : string) (provisionerConfig : ProvisionerConfiguration.t)
    (files : list FileInfo.t) (data : gmap string string) :
  ioutil_ReadDir configPath = (files, None) →
  readConfigFiles ioutil_ReadFile configPath files ∅ = inr data →
  LoadProvisionerConfigs ioutil_ReadDir ioutil_ReadFile configPath
    provisionerConfig
  = ConfigMapDataToVolumeConfig data provisionerConfig.
Proof.
  intros Hdir Hfiles. unfold LoadProvisionerConfigs.
  by rewrite Hdir, Hfiles.
Qed.

Lemma ReplaceAll_nonempty (path old new : string) :
  path ≠ "" → new ≠ "" → strings.ReplaceAll path old new ≠ "".
Proof.
  intros Hpath Hnew. destruct path as [|c rest]; [done|].
  unfold strings.ReplaceAll.
  change (strings.replaceFrom old new 0 (String c rest))
    with (if String.prefix old (String c rest)
          then new +:+ strings.replaceFrom old new (String.length old - 1) rest
          else String c (strings.replaceFrom old new 0 rest)).
  destruct (String.prefix old (String c rest)); [|discriminate].
  destruct new as [|d new]; [done|]. rewrite append_cons. discriminate.
Qed.

Lemma normalizePath_nonempty (path : string) :
  path ≠ "" → normalizePath path ≠ "".
Proof.
  intros Hpath. unfold normalizePath. case_decide; [done|].
  destruct (strings.HasPrefix _ _).
  - discriminate.
  - by apply ReplaceAll_nonempty.
Qed.

(** After a return without error, every class of the struct is what the
    loop body made of the class the decoder gave under the same name. *)
Lemma ConfigMapDataToVolumeConfig_classes (data : gmap string string)
    (provisionerConfig result : ProvisionerConfiguration.t)
    (class : string) (config' : MountConfig.t) :
  ConfigMapDataToVolumeConfig data provisionerConfig = (result, None) →
  classesOf result !! class = Some config' →
  ∃ config,
    classesOf (decoded data provisionerConfig).1 !! class = Some config
    ∧ configured config config'.
Proof.
  unfold ConfigMapDataToVolumeConfig, decoded, classesOf.
  destruct (yaml_Unmarshal _ _) as [parsed [err|]]; [discriminate|].
  rewrite afterUnmarshal_decoded. simpl. intros Hret Hlook.
  injection Hret as <- Hok. simpl in Hlook.
  destruct (configureClasses_origin _ _ _ _ Hlook)
    as [Hold|(config & Hin & Hstep)].
  - apply range_elem_of in Hold.
    destruct (configureClasses_stored _ _ _ _ (range_NoDup _) Hok Hold)
      as (config'' & Hstep & Hlook').
    rewrite Hlook in Hlook'. injection Hlook' as <-.
    exists config'. split; [by apply range_elem_of|].
    by apply (configureClass_configured class).
  - exists config. split; [by apply range_elem_of|].
    by apply (configureClass_configured class).
Qed.

(** C3. After [ConfigMapDataToVolumeConfig] returns without error, every
    class of [provisionerConfig.StorageClassConfig] comes from the class the
    decoder gave under its name, with: [HostDir] and [MountDir] non-empty and
    equal to [normalizePath] of the decoded values; [VolumeMode]
    ["Filesystem"] or ["Block"], ["Filesystem"] in place of an empty one;
    [NamePattern] non-empty, ["*"] in place of an empty one; and a
    [BlockCleanerCommand] that is not nil and not empty. *)
Theorem ConfigMapDataToVolumeConfig_valid (data : gmap string string)
    (provisionerConfig result : ProvisionerConfiguration.t)
    (class : string) (config' : MountConfig.t) :
  ConfigMapDataToVolumeConfig data provisionerConfig = (result, None) →
  classesOf result !! class = Some config' →
  ∃ config,
    classesOf (decoded data provisionerConfig).1 !! class = Some config
    ∧ MountConfig.HostDir config' = normalizePath (MountConfig.HostDir config)
    ∧ MountConfig.MountDir config' = normalizePath (MountConfig.MountDir config)
    ∧ MountConfig.HostDir config' ≠ ""
    ∧ MountConfig.MountDir config' ≠ ""
    ∧ (MountConfig.VolumeMode config' = "Filesystem"
       ∨ MountConfig.VolumeMode config' = "Block")
    ∧ (MountConfig.VolumeMode config = "" →
       MountConfig.VolumeMode config' = "Filesystem")
    ∧ MountConfig.NamePattern config' ≠ ""
    ∧ (MountConfig.NamePattern config = "" →
       MountConfig.NamePattern config' = "*")
    ∧ ∃ command,
        MountConfig.BlockCleanerCommand config' = Some command
        ∧ command ≠ [].
Proof.
  intros Hret Hlook.
  destruct (ConfigMapDataToVolumeConfig_classes _ _ _ _ _ Hret Hlook)
    as (config & Hparsed & Hconf).
  destruct Hconf as (Hhost & Hmount & Hhost0 & Hmount0 & Hmode & Hmodes
                     & Hpattern & Hcommand & Hcommand0 & _).
  exists config. repeat split; try done.
  - rewrite Hhost. by apply normalizePath_nonempty.
  - rewrite Hmount. by apply normalizePath_nonempty.
  - intros Hempty. rewrite Hmode. by rewrite decide_True.
  - rewrite Hpattern. by case_decide.
  - intros Hempty. rewrite Hpattern. by rewrite decide_True.
  - rewrite Hcommand.
    destruct (MountConfig.BlockCleanerCommand config) as [[|arg command]|].
    + done.
    + by eexists.
    + by eexists.
Qed.

(** C5. The object returned by [CreateLocalPVSpec] has the access modes
    [[ReadWriteOnce]] when [config.AccessMode] is empty and
    [[config.AccessMode]] otherwise.  [ConfigMapDataToVolumeConfig] does not
    touch the field: whatever it leaves under a class name has the
    [AccessMode] the decoder gave that class, an empty one included. *)
Theorem AccessMode_defaulted_at_creation (config : LocalPVConfig.t)
    (data : gmap string string)
    (provisionerConfig : ProvisionerConfiguration.t)
    (class : string) (mountConfig' : MountConfig.t) :
  match CreateLocalPVSpec config with
  | Some pv =>
      PersistentVolumeSpec.AccessModes (PersistentVolume.Spec pv)
      = if decide (LocalPVConfig.AccessMode config = "")
        then ["ReadWriteOnce"]
        else [LocalPVConfig.AccessMode config]
  | None => configPanics config
  end
  ∧ (classesOf (ConfigMapDataToVolumeConfig data provisionerConfig).1 !! class
     = Some mountConfig' →
     ∃ mountConfig,
       classesOf (decoded data provisionerConfig).1 !! class = Some mountConfig
       ∧ MountConfig.AccessMode mountConfig'
         = MountConfig.AccessMode mountConfig).
Proof.
  split; [apply CreateLocalPVSpec_access_modes|].
  unfold ConfigMapDataToVolumeConfig, decoded, classesOf.
  destruct (yaml_Unmarshal _ _) as [parsed [err|]].
  - simpl. intros Hlook. by exists mountConfig'.
  - rewrite afterUnmarshal_decoded. simpl.
    intros [Hold|(mountConfig & Hin & Hstep)]%configureClasses_origin.
    + by exists mountConfig'.
    + exists mountConfig. split; [by apply range_elem_of|].
      apply configureClass_configured in Hstep.
      by destruct Hstep as (_ & _ & _ & _ & _ & _ & _ & _ & _ & Haccess & _).
Qed.

End Common.

(** ** The models of the library on known values *)

Example fnv1a32_vectors :
  fnv1a32 "" = 0x811c9dc5%Z ∧ fnv1a32 "a" = 0xe40c292c%Z
  ∧ fnv1a32 "foobar" = 0xbf9cf968%Z.
Proof. repeat split; reflexivity. Qed.

Example Sprintf_x_samples :
  fmt.Sprintf_x 0 = "0" ∧ fmt.Sprintf_x 16 = "10"
  ∧ fmt.Sprintf_x 0xbf9cf968 = "bf9cf968"
  ∧ fmt.Sprintf_x 0xffffffff = "ffffffff".
Proof. repeat split; reflexivity. Qed.

Example Split_samples :
  strings.Split "" "/" = [""]
  ∧ strings.Split "/a//b/" "/" = [""; "a"; ""; "b"; ""]
  ∧ strings.Split "a--b---c" "--" = ["a"; "b"; "-c"].
Proof. repeat split; reflexivity. Qed.

Example Clean_samples :
  filepath.Clean "" = "." ∧ filepath.Clean "abc//def/./ghi/" = "abc/def/ghi"
  ∧ filepath.Clean "abc/def/../../.." = ".."
  ∧ filepath.Clean "/abc/def/../../.." = "/"
  ∧ filepath.Clean "/../abc" = "/abc"
  ∧ filepath.Clean "abc/../../././../def" = "../../def".
Proof. repeat split; reflexivity. Qed.

Example Rel_samples :
  filepath.Rel "/a" "/a/b/c" = ("b/c", None)
  ∧ filepath.Rel "/a" "/b/c" = ("../b/c", None)
  ∧ filepath.Rel "a/b/c/d" "a/b" = ("../..", None)
  ∧ filepath.Rel "a/b" "a/b/." = (".", None)
  ∧ filepath.Rel "." "a/b" = ("a/b", None)
  ∧ (filepath.Rel "/a" "./b/c").2
    = Some (ExternalError "Rel: can't make ./b/c relative to /a")
  ∧ is_Some (filepath.Rel ".." "a").2.
Proof. repeat split; try reflexivity. by eexists. Qed.

(** Where [Rel] cannot answer by the text of the paths alone. *)
Example Rel_not_lexical :
  filepath.Rel "." ".." = ("..", None)
  ∧ filepath.Rel ".." "../.." = ("..", None)
  ∧ filepath.Rel "../../a/b" "../../a/b/c/d" = ("c/d", None)
  ∧ (filepath.Rel ".." ".").2
    = Some (ExternalError "Rel: can't make . relative to ..")
  ∧ (filepath.Rel "../.." "..").2
    = Some (ExternalError "Rel: can't make .. relative to ../..")
  ∧ (filepath.Rel "a" "/a").2
    = Some (ExternalError "Rel: can't make /a relative to a").
Proof. repeat split; reflexivity. Qed.

(** More cases of [Rel], between relative paths and between rooted ones,
    and the five that have no answer. *)
Example Rel_table :
  Forall (λ '(root, path, want), filepath.Rel root path = (want, None))
    [("a/b", "a/b", "."); ("a/b/.", "a/b", "."); ("a/b", "a/b/.", ".");
     ("./a/b", "a/b", "."); ("a/b", "./a/b", ".");
     ("ab/cd", "ab/cde", "../cde"); ("ab/cd", "ab/c", "../c");
     ("a/b", "a/b/c/d", "c/d"); ("a/b", "a/b/../c", "../c");
     ("a/b/../c", "a/b", "../b"); ("a/b/c", "a/c/d", "../../c/d");
     ("a/b", "c/d", "../../c/d"); ("a/b/c/d", "a/b", "../..");
     ("a/b/c/d", "a/b/", "../.."); ("a/b/c/d/", "a/b", "../..");
     ("a/b/c/d/", "a/b/", "../.."); ("../../a/b", "../../a/b/c/d", "c/d");
     ("/a/b", "/a/b", "."); ("/a/b/.", "/a/b", "."); ("/a/b", "/a/b/.", ".");
     ("/ab/cd", "/ab/cde", "../cde"); ("/ab/cd", "/ab/c", "../c");
     ("/a/b", "/a/b/c/d", "c/d"); ("/a/b", "/a/b/../c", "../c");
     ("/a/b/../c", "/a/b", "../b"); ("/a/b/c", "/a/c/d", "../../c/d");
     ("/a/b", "/c/d", "../../c/d"); ("/a/b/c/d", "/a/b", "../..");
     ("/a/b/c/d", "/a/b/", "../.."); ("/a/b/c/d/", "/a/b", "../..");
     ("/a/b/c/d/", "/a/b/", "../.."); ("/../../a/b", "/../../a/b/c/d", "c/d");
     (".", "a/b", "a/b"); (".", "..", "..")]
  ∧ Forall (λ '(root, path), is_Some (filepath.Rel root path).2)
      [("..", "."); ("..", "a"); ("../..", ".."); ("a", "/a"); ("/a", "a")].
Proof.
  split.
  - repeat (apply Forall_cons; split; [reflexivity|]). apply Forall_nil_2.
  - repeat (apply Forall_cons; split; [by eexists|]). apply Forall_nil_2.
Qed.

Example normalizePath_samples :
  normalizePath "linux" "/mnt/fast" = "/mnt/fast"
  ∧ normalizePath "windows" "/mnt/fast" = "c:\mnt\fast"
  ∧ normalizePath "windows" "d:/mnt" = "d:\mnt".
Proof. repeat split; reflexivity. Qed.

(** ** Paths *)

Lemma length_append (a b : string) :
  String.length (a +:+ b) = String.length a + String.length b.
Proof.
  induction a as [|c a IH]; [reflexivity|].
  rewrite append_cons. simpl. by rewrite IH.
Qed.

Lemma prefix_nil (s : string) : String.prefix "" s = true.
Proof. by destruct s. Qed.

Lemma prefix_sep (c : ascii) (s : string) :
  String.prefix "/" (String c s) = bool_decide (c = filepath.Separator).
Proof.
  unfold filepath.Separator.
  change (String.prefix "/" (String c s))
    with (match ascii_dec "/" c with
          | left _ => String.prefix "" s
          | right _ => false
          end).
  destruct (ascii_dec "/" c) as [<-|Hne].
  - by rewrite prefix_nil, bool_decide_true.
  - by rewrite bool_decide_false.
Qed.

Lemma splitFrom_sep (cur rest : string) :
  strings.splitFrom "/" 0 cur (String filepath.Separator rest)
  = cur :: strings.splitFrom "/" 0 "" rest.
Proof.
  change (strings.splitFrom "/" 0 cur (String filepath.Separator rest))
    with (if String.prefix "/" (String filepath.Separator rest)
          then cur :: strings.splitFrom "/" 0 "" rest
          else strings.splitFrom "/" 0 (cur +:+ String filepath.Separator "") rest).
  by rewrite prefix_sep, bool_decide_true.
Qed.

Lemma splitFrom_other (c : ascii) (cur rest : string) :
  c ≠ filepath.Separator →
  strings.splitFrom "/" 0 cur (String c rest)
  = strings.splitFrom "/" 0 (cur +:+ String c "") rest.
Proof.
  intros Hc.
  change (strings.splitFrom "/" 0 cur (String c rest))
    with (if String.prefix "/" (String c rest)
          then cur :: strings.splitFrom "/" 0 "" rest
          else strings.splitFrom "/" 0 (cur +:+ String c "") rest).
  by rewrite prefix_sep, bool_decide_false.
Qed.

(** Splitting at a separator splits the two sides. *)
Lemma splitFrom_append (cur a b : string) :
  strings.splitFrom "/" 0 cur (a +:+ String filepath.Separator b)
  = strings.splitFrom "/" 0 cur a ++ strings.splitFrom "/" 0 "" b.
Proof.
  revert cur. induction a as [|c a IH]; intros cur.
  - rewrite append_nil_l, splitFrom_sep. reflexivity.
  - rewrite append_cons. destruct (decide (c = filepath.Separator)) as [->|Hc].
    + rewrite !splitFrom_sep, IH. reflexivity.
    + rewrite !splitFrom_other by done. apply IH.
Qed.

Lemma Split_append (a b : string) :
  strings.Split (a +:+ "/" +:+ b) "/" = strings.Split a "/" ++ strings.Split b "/".
Proof. apply splitFrom_append. Qed.

Lemma splitFrom_sepFree (cur x : string) :
  sepFree x → strings.splitFrom "/" 0 cur x = [cur +:+ x].
Proof.
  revert cur. induction x as [|c x IH]; intros cur Hx.
  - by rewrite append_nil_r.
  - destruct Hx as [Hc Hx]. rewrite splitFrom_other, IH by done.
    by rewrite append_assoc.
Qed.

Lemma Split_sepFree (x : string) : sepFree x → strings.Split x "/" = [x].
Proof. apply splitFrom_sepFree. Qed.

Lemma sepFree_append (a b : string) : sepFree a → sepFree b → sepFree (a +:+ b).
Proof.
  induction a as [|c a IH]; [done|]. intros [Hc Ha] Hb.
  rewrite append_cons. split; [done | by apply IH].
Qed.

Lemma splitFrom_all_sepFree (cur s : string) :
  sepFree cur → Forall sepFree (strings.splitFrom "/" 0 cur s).
Proof.
  revert cur. induction s as [|c s IH]; intros cur Hcur.
  - by constructor.
  - destruct (decide (c = filepath.Separator)) as [->|Hc].
    + rewrite splitFrom_sep. constructor; [done | by apply IH].
    + rewrite splitFrom_other by done. apply IH, sepFree_append; [done|].
      by split.
Qed.

Lemma Split_all_sepFree (s : string) : Forall sepFree (strings.Split s "/").
Proof. by apply splitFrom_all_sepFree. Qed.

Lemma Join_cons (x y : string) (l : list string) :
  strings.Join (x :: y :: l) "/" = x +:+ "/" +:+ strings.Join (y :: l) "/".
Proof. reflexivity. Qed.

(** Joining and splitting again gives the elements back. *)
Lemma Split_Join (l : list string) :
  l ≠ [] → Forall sepFree l → strings.Split (strings.Join l "/") "/" = l.
Proof.
  induction l as [|x [|y l] IH]; intros Hne Hall; [done| |].
  - apply Split_sepFree. by inversion Hall.
  - rewrite Join_cons, Split_append, IH.
    + rewrite Split_sepFree; [done|]. by inversion Hall.
    + done.
    + by inversion Hall.
Qed.

Lemma Clean_render (path : string) :
  path ≠ "" →
  filepath.Clean path
  = render (strings.HasPrefix path "/") (stackOf (strings.HasPrefix path "/") path).
Proof. intros Hne. unfold filepath.Clean. by rewrite decide_False. Qed.

Lemma cleanStep_real (rooted : bool) (out : list string) (e : string) :
  real e → filepath.cleanStep rooted out e = e :: out.
Proof.
  intros (_ & H1 & H2 & H3). unfold filepath.cleanStep.
  by rewrite !decide_False.
Qed.

Lemma canonical_nil (rooted : bool) : canonical rooted [].
Proof. exists [], []. by repeat split. Qed.

Lemma cleanStep_canonical (rooted : bool) (out : list string) (e : string) :
  sepFree e → canonical rooted out → canonical rooted (filepath.cleanStep rooted out e).
Proof.
  intros He (reals & ups & -> & Hreals & Hups & Hroot).
  unfold filepath.cleanStep.
  destruct (decide (e = "")) as [_|H1]; [by exists reals, ups|].
  destruct (decide (e = ".")) as [_|H2]; [by exists reals, ups|].
  destruct (decide (e = "..")) as [->|H3].
  - destruct reals as [|top reals].
    + simpl. destruct ups as [|top ups].
      * destruct rooted; [apply canonical_nil|].
        exists [], [".."]. repeat split; try done. by repeat constructor.
      * apply Forall_cons in Hups as [-> Hups]. rewrite decide_True by done.
        destruct rooted; [by specialize (Hroot eq_refl)|].
        exists [], (".." :: ".." :: ups). repeat split; try done.
        by repeat constructor.
    + apply Forall_cons in Hreals as [Htop Hreals]. simpl.
      rewrite decide_False by apply Htop. by exists reals, ups.
  - exists (e :: reals), ups. repeat split; try done. by constructor.
Qed.

Lemma fold_canonical (rooted : bool) (elems out : list string) :
  Forall sepFree elems → canonical rooted out →
  canonical rooted (fold_left (filepath.cleanStep rooted) elems out).
Proof.
  revert out. induction elems as [|e elems IH]; intros out Hall Hout; [done|].
  apply Forall_cons in Hall as [He Hall]. simpl.
  by apply IH, cleanStep_canonical.
Qed.

Lemma stackOf_canonical (rooted : bool) (path : string) :
  canonical rooted (stackOf rooted path).
Proof.
  apply fold_canonical; [apply Split_all_sepFree | apply canonical_nil].
Qed.

Lemma fold_reals (rooted : bool) (reals out : list string) :
  Forall real reals →
  fold_left (filepath.cleanStep rooted) reals out = rev reals ++ out.
Proof.
  revert out. induction reals as [|e reals IH]; intros out Hall; [done|].
  apply Forall_cons in Hall as [He Hall]. simpl.
  rewrite cleanStep_real, IH by done. by rewrite <- app_assoc.
Qed.

Lemma fold_ups (ups out : list string) :
  Forall (λ e, e = "..") ups → Forall (λ e, e = "..") out →
  fold_left (filepath.cleanStep false) ups out = rev ups ++ out.
Proof.
  revert out. induction ups as [|e ups IH]; intros out Hups Hout; [done|].
  apply Forall_cons in Hups as [-> Hups]. simpl.
  assert (Hstep : filepath.cleanStep false out ".." = ".." :: out).
  { destruct out as [|top out]; [done|].
    apply Forall_cons in Hout as [-> Hout]. reflexivity. }
  rewrite Hstep, IH; [by rewrite <- app_assoc | done | by constructor].
Qed.

(** Cleaning what [Clean] has kept keeps all of it. *)
Lemma fold_rev_canonical (rooted : bool) (out : list string) :
  canonical rooted out →
  fold_left (filepath.cleanStep rooted) (rev out) [] = out.
Proof.
  intros (reals & ups & -> & Hreals & Hups & Hroot).
  rewrite rev_app_distr, fold_left_app.
  destruct rooted.
  - rewrite (Hroot eq_refl). simpl.
    rewrite fold_reals; [|by apply List.Forall_rev].
    by rewrite rev_involutive.
  - rewrite (fold_ups (rev ups) []); [|by apply List.Forall_rev|by constructor].
    rewrite fold_reals; [|by apply List.Forall_rev].
    by rewrite !rev_involutive, app_nil_r.
Qed.

Lemma canonical_elements (rooted : bool) (out : list string) :
  canonical rooted out → Forall (λ e, sepFree e ∧ e ≠ "") out.
Proof.
  intros (reals & ups & -> & Hreals & Hups & _). apply Forall_app. split.
  - eapply Forall_impl; [exact Hreals|]. by intros e (? & ? & _).
  - eapply Forall_impl; [exact Hups|]. intros e ->. repeat split; done.
Qed.

Lemma canonical_sepFree (rooted : bool) (out : list string) :
  canonical rooted out → Forall sepFree out.
Proof.
  intros Hout. eapply Forall_impl; [by apply (canonical_elements rooted)|].
  by intros e [? _].
Qed.

(** A join of non-empty elements without separator starts with none. *)
Lemma Join_not_rooted (l : list string) :
  l ≠ [] → Forall (λ e, sepFree e ∧ e ≠ "") l →
  strings.Join l "/" ≠ "" ∧ strings.HasPrefix (strings.Join l "/") "/" = false.
Proof.
  intros Hne Hall. destruct l as [|[|c e] l]; [done| |].
  - apply Forall_cons in Hall as [[_ Hempty] _]. done.
  - apply Forall_cons in Hall as [[[Hc _] _] _].
    assert (∃ t, strings.Join (String c e :: l) "/" = String c t) as [t ->].
    { destruct l; [by eexists|]. rewrite Join_cons, append_cons. by eexists. }
    split; [done|]. unfold strings.HasPrefix.
    by rewrite prefix_sep, bool_decide_false.
Qed.

Lemma render_facts (rooted : bool) (out : list string) :
  canonical rooted out →
  render rooted out ≠ ""
  ∧ strings.HasPrefix (render rooted out) "/" = rooted
  ∧ stackOf rooted (render rooted out) = out.
Proof.
  intros Hout. pose proof (canonical_elements _ _ Hout) as Helems.
  pose proof (canonical_sepFree _ _ Hout) as Hfree.
  unfold render, stackOf. destruct rooted.
  - rewrite append_cons, append_nil_l. repeat split; [done|..].
    + unfold strings.HasPrefix. by rewrite prefix_sep, bool_decide_true.
    + unfold strings.Split. rewrite splitFrom_sep. simpl.
      destruct (decide (out = [])) as [->|Hne]; [done|].
      fold (strings.Split (strings.Join (rev out) "/") "/").
      rewrite Split_Join.
      * by apply fold_rev_canonical.
      * intros Hrev. apply Hne. by rewrite <- (rev_involutive out), Hrev.
      * by apply List.Forall_rev.
  - destruct out as [|top out]; [done|].
    assert (Hne : rev (top :: out) ≠ []).
    { intros Hrev. by apply (f_equal (@length _)) in Hrev;
        rewrite length_rev in Hrev. }
    destruct (Join_not_rooted (rev (top :: out)) Hne) as [Hjoin Hrooted].
    { by apply List.Forall_rev. }
    repeat split; [done..|].
    rewrite Split_Join; [by apply fold_rev_canonical | done | by apply List.Forall_rev].
Qed.

(** [Clean] leaves a cleaned path as it is. *)
Lemma Clean_rendered (rooted : bool) (out : list string) :
  canonical rooted out → filepath.Clean (render rooted out) = render rooted out.
Proof.
  intros Hout. destruct (render_facts _ _ Hout) as (Hne & Hrooted & Hstack).
  by rewrite Clean_render, Hrooted, Hstack.
Qed.

Lemma render_inj (rooted : bool) (out1 out2 : list string) :
  canonical rooted out1 → canonical rooted out2 →
  render rooted out1 = render rooted out2 → out1 = out2.
Proof.
  intros H1 H2 Heq.
  destruct (render_facts _ _ H1) as (_ & _ & <-).
  destruct (render_facts _ _ H2) as (_ & _ & <-).
  by rewrite Heq.
Qed.

(** Without a root, a [..] that [Clean] has kept is never removed. *)
Lemma cleanStep_keeps_dotdot (out : list string) (e : string) :
  ".." ∈ out → ".." ∈ filepath.cleanStep false out e.
Proof.
  intros Hin. unfold filepath.cleanStep.
  repeat case_decide; try done.
  - destruct out as [|top below]; [by apply elem_of_nil in Hin|].
    case_decide; [by right|].
    apply elem_of_cons in Hin as [Heq|Hin]; [done|done].
  - by right.
Qed.

Lemma fold_keeps_dotdot (elems out : list string) :
  ".." ∈ out → ".." ∈ fold_left (filepath.cleanStep false) elems out.
Proof.
  revert out. induction elems as [|e elems IH]; intros out Hin; [done|].
  simpl. by apply IH, cleanStep_keeps_dotdot.
Qed.

Lemma cleanStep_local (rooted : bool) (out below : list string) (e : string) :
  ".." ∉ filepath.cleanStep false out e →
  filepath.cleanStep rooted (out ++ below) e
  = filepath.cleanStep false out e ++ below.
Proof.
  unfold filepath.cleanStep. intros Hnot.
  repeat case_decide; try done.
  destruct out as [|top out].
  - exfalso. apply Hnot. left.
  - simpl. case_decide; [|done]. exfalso. apply Hnot. left.
Qed.

(** Elements that, cleaned on their own, leave no [..] are cleaned the same
    way after any path: what they leave is put on top of what was there. *)
Lemma fold_local (rooted : bool) (elems out below : list string) :
  ".." ∉ fold_left (filepath.cleanStep false) elems out →
  fold_left (filepath.cleanStep rooted) elems (out ++ below)
  = fold_left (filepath.cleanStep false) elems out ++ below.
Proof.
  revert out. induction elems as [|e elems IH]; intros out Hnot; [done|].
  simpl in *. rewrite cleanStep_local; [by apply IH|].
  intros Hin. by apply Hnot, fold_keeps_dotdot.
Qed.

(** *** [Rel] below a directory *)

Lemma cut_sep (rest : string) :
  filepath.cut (String filepath.Separator rest) = ("", rest).
Proof. reflexivity. Qed.

Lemma cut_other (c : ascii) (rest : string) :
  c ≠ filepath.Separator →
  filepath.cut (String c rest)
  = (String c (filepath.cut rest).1, (filepath.cut rest).2).
Proof.
  intros Hc. simpl. rewrite decide_False by done.
  by destruct (filepath.cut rest).
Qed.

Lemma cut_sepFree_sep (x rest : string) :
  sepFree x → filepath.cut (x +:+ String filepath.Separator rest) = (x, rest).
Proof.
  induction x as [|c x IH]; intros Hx; [reflexivity|].
  destruct Hx as [Hc Hx]. rewrite append_cons, cut_other, IH by done.
  reflexivity.
Qed.

Lemma cut_sepFree (x : string) : sepFree x → filepath.cut x = (x, "").
Proof.
  induction x as [|c x IH]; intros Hx; [reflexivity|].
  destruct Hx as [Hc Hx]. rewrite cut_other, IH by done. reflexivity.
Qed.

Lemma cut_Join (x : string) (l : list string) :
  sepFree x → filepath.cut (strings.Join (x :: l) "/") = (x, strings.Join l "/").
Proof.
  intros Hx. destruct l as [|y l].
  - by apply cut_sepFree.
  - rewrite Join_cons. by apply cut_sepFree_sep.
Qed.

Lemma length_Join (x : string) (l : list string) :
  String.length x + String.length (strings.Join l "/")
  ≤ String.length (strings.Join (x :: l) "/").
Proof.
  destruct l as [|y l]; [simpl; lia|].
  rewrite Join_cons, !length_append. simpl. lia.
Qed.

Lemma Join_nonempty (x : string) (l : list string) :
  x ≠ "" → strings.Join (x :: l) "/" ≠ "".
Proof.
  intros Hx. destruct x as [|c x]; [done|]. destruct l; [done|].
  rewrite Join_cons, append_cons. done.
Qed.

(** The loop of [Rel] on a directory and a path below it: the elements of
    the directory are passed, the rest of the path is left. *)
Lemma relLoop_below (base rest : list string) (fuel : nat) :
  Forall (λ e, sepFree e ∧ e ≠ "") base →
  rest ≠ [] →
  String.length (strings.Join base "/") ≤ fuel →
  filepath.relLoop fuel (strings.Join base "/") (strings.Join (base ++ rest) "/")
  = ("", "", strings.Join rest "/").
Proof.
  revert fuel. induction base as [|x base IH]; intros fuel Hbase Hrest Hfuel.
  - destruct fuel; [reflexivity|]. cbn [filepath.relLoop].
    rewrite decide_True; [reflexivity | by left].
  - apply Forall_cons in Hbase as [[Hx Hx0] Hbase].
    pose proof (length_Join x base) as Hlen.
    assert (String.length x ≠ 0) by by destruct x.
    destruct fuel as [|fuel]; [lia|].
    cbn [filepath.relLoop]. rewrite decide_False.
    + rewrite <- app_comm_cons, !cut_Join by done.
      rewrite decide_True by done. apply IH; [done..|lia].
    + intros [Hb|Ht]; by eapply Join_nonempty.
Qed.

Lemma canonical_above (rooted : bool) (rest base : list string) :
  Forall real rest → canonical rooted base → canonical rooted (rest ++ base).
Proof.
  intros Hrest (reals & ups & -> & Hreals & Hups & Hroot).
  exists (rest ++ reals), ups. rewrite app_assoc.
  repeat split; try done. by apply Forall_app.
Qed.

Lemma real_elements (l : list string) :
  Forall real l → Forall (λ e, sepFree e ∧ e ≠ "") l.
Proof.
  intros Hall. eapply Forall_impl; [exact Hall|]. by intros e (? & ? & _).
Qed.

Lemma rev_nonempty {A : Type} (l : list A) : l ≠ [] → rev l ≠ [].
Proof.
  intros Hne Hrev. apply Hne. by rewrite <- (rev_involutive l), Hrev.
Qed.

Lemma render_not_rooted (out : list string) :
  out ≠ [] → render false out = strings.Join (rev out) "/".
Proof. by destruct out. Qed.

Lemma render_rooted (out : list string) :
  render true out = String filepath.Separator (strings.Join (rev out) "/").
Proof. reflexivity. Qed.

(** [Rel] when the loop passes the whole base: the rest of the target. *)
Lemma Rel_cleaned (basepath targpath base targ t : string) :
  filepath.Clean basepath = base →
  filepath.Clean targpath = targ →
  targ ≠ base →
  strings.HasPrefix (if decide (base = ".") then "" else base) "/"
  = strings.HasPrefix targ "/" →
  filepath.relLoop
    (String.length (if decide (base = ".") then "" else base))
    (if decide (base = ".") then "" else base) targ
  = ("", "", t) →
  filepath.Rel basepath targpath = (t, None).
Proof.
  intros Hb Ht Hne Hslash Hloop. unfold filepath.Rel. cbv zeta.
  rewrite Hb, Ht, (decide_False (P := targ = base)) by done.
  rewrite Hslash, Hloop.
  rewrite decide_False by (intros Hx; by apply Hx).
  reflexivity.
Qed.

(** [Rel] from a directory to a path that [Clean] puts below it: the
    elements of the path after those of the directory. *)
Lemma Rel_below (basepath targpath : string) (rooted : bool)
    (base rest : list string) :
  canonical rooted base → Forall real rest → rest ≠ [] →
  filepath.Clean basepath = render rooted base →
  filepath.Clean targpath = render rooted (rest ++ base) →
  filepath.Rel basepath targpath = (strings.Join (rev rest) "/", None).
Proof.
  intros Hbase Hrest Hne Hb Ht.
  pose proof (canonical_above _ _ _ Hrest Hbase) as Htarg.
  pose proof (real_elements _ (List.Forall_rev Hrest)) as Hrest'.
  pose proof (canonical_elements _ _ Hbase) as Hbase'.
  apply List.Forall_rev in Hbase'.
  pose proof (rev_nonempty _ Hne) as Hne'.
  assert (Habove : rest ++ base ≠ []) by (by destruct rest).
  apply (Rel_cleaned _ _ _ _ _ Hb Ht).
  { intros Heq%render_inj; [|done..].
    apply (f_equal (@length _)) in Heq. rewrite length_app in Heq.
    destruct rest; [done|]. simpl in Heq. lia. }
  - destruct rooted.
    + rewrite !render_rooted, decide_False by discriminate.
      unfold strings.HasPrefix. by rewrite !prefix_sep, !bool_decide_true.
    + rewrite (render_not_rooted (rest ++ base)), rev_app_distr by done.
      destruct (Join_not_rooted (rev base ++ rev rest)) as [_ ->];
        [by intros [_ ?]%app_eq_nil | by apply Forall_app|].
      destruct (decide (base = [])) as [->|Hbne].
      * by rewrite decide_True.
      * rewrite decide_False.
        2:{ intros Heq. apply Hbne.
            apply (render_inj false); [done|apply canonical_nil|done]. }
        rewrite render_not_rooted by done.
        by destruct (Join_not_rooted _ (rev_nonempty _ Hbne) Hbase') as [_ ->].
  - destruct rooted.
    + rewrite !render_rooted, rev_app_distr, decide_False by discriminate.
      cbn [String.length filepath.relLoop].
      rewrite decide_False by (by intros [?|?]).
      rewrite !cut_sep, decide_True by done.
      by rewrite relLoop_below.
    + rewrite (render_not_rooted (rest ++ base)), rev_app_distr by done.
      destruct (decide (base = [])) as [->|Hbne].
      * by rewrite decide_True.
      * rewrite decide_False.
        2:{ intros Heq. apply Hbne.
            apply (render_inj false); [done|apply canonical_nil|done]. }
        rewrite render_not_rooted by done.
        by rewrite relLoop_below.
Qed.

(** *** [Join] of a directory and a path that stays below it *)

Lemma Clean_stack (path : string) :
  filepath.Clean path
  = render (strings.HasPrefix path "/") (stackOf (strings.HasPrefix path "/") path).
Proof.
  destruct (decide (path = "")) as [->|Hne]; [reflexivity|].
  by apply Clean_render.
Qed.

Lemma HasPrefix_append (a b : string) :
  a ≠ "" → strings.HasPrefix (a +:+ b) "/" = strings.HasPrefix a "/".
Proof.
  intros Ha. destruct a as [|c a]; [done|].
  unfold strings.HasPrefix. by rewrite append_cons, !prefix_sep.
Qed.

Lemma Join_below (dir path : string) :
  below path →
  filepath.Join [dir; path]
  = render (strings.HasPrefix dir "/")
      (stackOf false path ++ stackOf (strings.HasPrefix dir "/") dir).
Proof.
  intros (Hne & Hrel & Hlocal). unfold filepath.Join.
  destruct (decide (dir = "")) as [->|Hdir].
  - rewrite decide_False by done.
    change (strings.Join [path] "/") with path.
    rewrite Clean_stack, Hrel. by rewrite app_nil_r.
  - change (strings.Join [dir; path] "/") with (dir +:+ "/" +:+ path).
    rewrite Clean_stack, HasPrefix_append by done.
    unfold stackOf at 1. rewrite Split_append, fold_left_app.
    fold (stackOf (strings.HasPrefix dir "/") dir).
    f_equal. by apply (fold_local _ _ []).
Qed.

(** Two such paths with the same elements are joined to the same path. *)
Lemma Join_below_eq (dir path1 path2 : string) :
  below path1 → below path2 →
  stackOf false path1 = stackOf false path2 →
  filepath.Join [dir; path1] = filepath.Join [dir; path2].
Proof. intros H1 H2 Heq. by rewrite !Join_below, Heq. Qed.

Lemma below_real (path : string) :
  below path → Forall real (stackOf false path).
Proof.
  intros (_ & _ & Hlocal).
  destruct (stackOf_canonical false path) as (reals & ups & Heq & Hreals & Hups & _).
  rewrite Heq in *. destruct ups as [|up ups]; [by rewrite app_nil_r|].
  apply Forall_cons in Hups as [-> _]. exfalso. apply Hlocal.
  apply elem_of_app. right. left.
Qed.

Lemma below_Join (rest : list string) :
  rest ≠ [] → Forall real rest →
  below (strings.Join (rev rest) "/")
  ∧ stackOf false (strings.Join (rev rest) "/") = rest.
Proof.
  intros Hne Hrest.
  pose proof (real_elements _ (List.Forall_rev Hrest)) as Helems.
  destruct (Join_not_rooted _ (rev_nonempty _ Hne) Helems) as [Hj0 Hjr].
  assert (Hstack : stackOf false (strings.Join (rev rest) "/") = rest).
  { unfold stackOf. rewrite Split_Join.
    - rewrite fold_reals by by apply List.Forall_rev.
      by rewrite rev_involutive, app_nil_r.
    - by apply rev_nonempty.
    - eapply Forall_impl; [exact Helems|]. by intros e [? _]. }
  repeat split; try done. rewrite Hstack. intros Hin.
  rewrite Forall_forall in Hrest. by destruct (Hrest _ Hin) as (_ & _ & _ & ?).
Qed.

(** The hypothesis on the file name, as the statement of the property has
    it, gives [below]. *)
Lemma below_intro (fileName : string) :
  fileName ≠ "" → strings.HasPrefix fileName "/" = false →
  ".." ∉ strings.Split (filepath.Clean fileName) "/" →
  below fileName.
Proof.
  intros Hne Hrel Hclean. repeat split; try done.
  rewrite Clean_stack, Hrel in Hclean. intros Hin. apply Hclean.
  pose proof (stackOf_canonical false fileName) as Hcan.
  destruct (stackOf false fileName) as [|top out] eqn:Hstack;
    [by apply elem_of_nil in Hin|].
  rewrite render_not_rooted, Split_Join by
    (done || (by apply rev_nonempty) || (by apply List.Forall_rev, (canonical_sepFree false))).
  apply list_elem_of_In, in_rev. rewrite rev_involutive.
  by apply list_elem_of_In.
Qed.

(** [Rel] from a directory to the join of the directory and a path below
    it: a path below, with the elements of the path that was joined. *)
Lemma Rel_Join_below (dir path : string) :
  below path →
  ∃ rel, filepath.Rel dir (filepath.Join [dir; path]) = (rel, None)
         ∧ below rel ∧ stackOf false rel = stackOf false path.
Proof.
  intros Hbelow. pose proof (below_real _ Hbelow) as Hreal.
  pose proof (stackOf_canonical (strings.HasPrefix dir "/") dir) as Hdir.
  rewrite Join_below by done.
  destruct (decide (stackOf false path = [])) as [Hnil|Hne].
  - exists ".". repeat split; [|done|by intros ?%elem_of_nil|by rewrite Hnil].
    rewrite Hnil. simpl. unfold filepath.Rel. cbv zeta.
    rewrite Clean_rendered, <- Clean_stack by done.
    by rewrite decide_True.
  - exists (strings.Join (rev (stackOf false path)) "/").
    destruct (below_Join _ Hne Hreal) as [Hb Hs]. repeat split; try apply Hb; [|done].
    eapply Rel_below; [exact Hdir|done..|apply Clean_stack|].
    apply Clean_rendered. by apply canonical_above.
Qed.

(** ** [GetContainerPath] *)





(** A relative path with [..] elements is no name of a directory entry, and
    the container path need not be [Join] of [MountDir] and such a path:
    with [HostDir = "/mnt/fast"] and [MountDir = "/mnt/disks"], the path
    ["../fast/vol1"] joined to [HostDir] is ["/mnt/fast/vol1"], the volume
    of the entry ["vol1"], and its container path is ["/mnt/disks/vol1"]. *)
Example GetContainerPath_climbing_path :
  filepath.Join [MountConfig.HostDir fastConfig; "../fast/vol1"]
  = filepath.Join [MountConfig.HostDir fastConfig; "vol1"]
  ∧ GetContainerPath (volumeAt "/mnt/fast/vol1") fastConfig
    = Some (filepath.Join [MountConfig.MountDir fastConfig; "vol1"], None)
  ∧ filepath.Join [MountConfig.MountDir fastConfig; "../fast/vol1"]
    = "/mnt/fast/vol1".
Proof. repeat split; reflexivity. Qed.

(** Likewise at the root, where [Join] drops the [..] it cannot follow: with
    [HostDir = "/"] and [MountDir = "/m"], the path ["../x"] joined to
    [HostDir] is ["/x"], the volume of the entry ["x"], and its container
    path is ["/m/x"]. *)
Example GetContainerPath_above_root :
  filepath.Join [MountConfig.HostDir rootConfig; "../x"]
  = filepath.Join [MountConfig.HostDir rootConfig; "x"]
  ∧ GetContainerPath (volumeAt "/x") rootConfig
    = Some (filepath.Join [MountConfig.MountDir rootConfig; "x"], None)
  ∧ filepath.Join [MountConfig.MountDir rootConfig; "../x"] = "/x".
Proof. repeat split; reflexivity. Qed.


(** * Further properties *)

(** Properties of the functions above that go beyond the sentences of the
    specification: what the text helpers keep, what validation leaves behind,
    how the functions compose, and what the remaining functions of the file
    return on errors. *)

(** ** Splitting and replacing at one byte *)

Lemma prefix_byte (c d : ascii) (s : string) :
  String.prefix (String c "") (String d s) = bool_decide (d = c).
Proof.
  change (String.prefix (String c "") (String d s))
    with (match ascii_dec c d with
          | left _ => String.prefix "" s
          | right _ => false
          end).
  destruct (ascii_dec c d) as [<-|Hne].
  - by rewrite prefix_nil, bool_decide_true.
  - rewrite bool_decide_false; [done|]. by intros ->.
Qed.

Lemma splitFrom_byte_hit (c : ascii) (cur rest : string) :
  strings.splitFrom (String c "") 0 cur (String c rest)
  = cur :: strings.splitFrom (String c "") 0 "" rest.
Proof.
  change (strings.splitFrom (String c "") 0 cur (String c rest))
    with (if String.prefix (String c "") (String c rest)
          then cur :: strings.splitFrom (String c "") 0 "" rest
          else strings.splitFrom (String c "") 0 (cur +:+ String c "") rest).
  by rewrite prefix_byte, bool_decide_true.
Qed.

Lemma splitFrom_byte_miss (c d : ascii) (cur rest : string) :
  d ≠ c →
  strings.splitFrom (String c "") 0 cur (String d rest)
  = strings.splitFrom (String c "") 0 (cur +:+ String d "") rest.
Proof.
  intros Hd.
  change (strings.splitFrom (String c "") 0 cur (String d rest))
    with (if String.prefix (String c "") (String d rest)
          then cur :: strings.splitFrom (String c "") 0 "" rest
          else strings.splitFrom (String c "") 0 (cur +:+ String d "") rest).
  by rewrite prefix_byte, bool_decide_false.
Qed.

Lemma splitFrom_byte_append (c : ascii) (cur a b : string) :
  strings.splitFrom (String c "") 0 cur (a +:+ String c b)
  = strings.splitFrom (String c "") 0 cur a
    ++ strings.splitFrom (String c "") 0 "" b.
Proof.
  revert cur. induction a as [|d a IH]; intros cur.
  - by rewrite append_nil_l, splitFrom_byte_hit.
  - rewrite append_cons. destruct (decide (d = c)) as [->|Hd].
    + by rewrite !splitFrom_byte_hit, IH.
    + rewrite !splitFrom_byte_miss by done. apply IH.
Qed.

Lemma splitFrom_byteFree (c : ascii) (cur x : string) :
  byteFree c x → strings.splitFrom (String c "") 0 cur x = [cur +:+ x].
Proof.
  revert cur. induction x as [|d x IH]; intros cur Hx.
  - by rewrite append_nil_r.
  - destruct Hx as [Hd Hx]. rewrite splitFrom_byte_miss, IH by done.
    by rewrite append_assoc.
Qed.

Lemma byteFree_append (c : ascii) (a b : string) :
  byteFree c a → byteFree c b → byteFree c (a +:+ b).
Proof.
  induction a as [|d a IH]; [done|]. intros [Hd Ha] Hb.
  rewrite append_cons. split; [done | by apply IH].
Qed.

Lemma splitFrom_all_byteFree (c : ascii) (cur s : string) :
  byteFree c cur → Forall (byteFree c) (strings.splitFrom (String c "") 0 cur s).
Proof.
  revert cur. induction s as [|d s IH]; intros cur Hcur.
  - by constructor.
  - destruct (decide (d = c)) as [->|Hd].
    + rewrite splitFrom_byte_hit. constructor; [done | by apply IH].
    + rewrite splitFrom_byte_miss by done. apply IH, byteFree_append; [done|].
      by split.
Qed.

Lemma splitFrom_nonempty (sep : string) (skip : nat) (cur s : string) :
  strings.splitFrom sep skip cur s ≠ [].
Proof.
  revert skip cur. induction s as [|d s IH]; intros skip cur.
  - discriminate.
  - cbn [strings.splitFrom]. destruct skip; [|apply IH].
    destruct (String.prefix sep (String d s)); [discriminate | apply IH].
Qed.

(** Joining the pieces of a split with the separator gives the string back. *)
Lemma Join_splitFrom (c : ascii) (cur s : string) :
  strings.Join (strings.splitFrom (String c "") 0 cur s) (String c "")
  = cur +:+ s.
Proof.
  revert cur. induction s as [|d s IH]; intros cur.
  - by rewrite append_nil_r.
  - destruct (decide (d = c)) as [->|Hd].
    + rewrite splitFrom_byte_hit. specialize (IH "").
      pose proof (splitFrom_nonempty (String c "") 0 "" s) as Hne.
      destruct (strings.splitFrom (String c "") 0 "" s) as [|x l]; [done|].
      unfold strings.Join in *.
      change (String.concat (String c "") (cur :: x :: l))
        with (cur +:+ String c "" +:+ String.concat (String c "") (x :: l)).
      by rewrite IH.
    + rewrite splitFrom_byte_miss by done. rewrite IH.
      by rewrite append_assoc.
Qed.

Lemma Join_Split (s : string) (c : ascii) :
  strings.Join (strings.Split s (String c "")) (String c "") = s.
Proof. apply Join_splitFrom. Qed.

(** ** [insertSpaces] *)

(** The lines of an indented value are the lines of the value, each after
    three spaces, and an empty piece after the last line feed. *)
Lemma Split_lines (lines : list string) :
  Forall (byteFree "010") lines →
  strings.Split (String.concat "" (lineText <$> lines)) LF
  = (String.append "   " <$> lines) ++ [""].
Proof.
  induction lines as [|line lines IH]; intros Hall; [reflexivity|].
  apply Forall_cons in Hall as [Hline Hall].
  rewrite !fmap_cons, concat_cons. unfold lineText at 1, LF, strings.Split.
  rewrite <- append_assoc.
  change (String "010" "" +:+ ?x) with (String "010" x).
  rewrite append_assoc.
  change (String "010" "" +:+ ?x) with (String "010" x).
  rewrite splitFrom_byte_append, splitFrom_byteFree.
  - simpl. f_equal. by apply IH.
  - apply byteFree_append; [|done]. repeat split; done.
Qed.

(** X1. Split at the line feeds, the text that [insertSpaces] returns is the
    lines of the original, each after three spaces, and one empty piece: the
    text ends with a line feed, and no line is lost or merged. *)
Theorem insertSpaces_Split (original : string) :
  strings.Split (insertSpaces original) LF
  = (String.append "   " <$> strings.Split original LF) ++ [""].
Proof.
  rewrite insertSpaces_lines. apply Split_lines.
  by apply splitFrom_all_byteFree.
Qed.

(** X2. [insertSpaces] loses nothing: two values with the same indented text
    are the same value. *)
Theorem insertSpaces_inj (s1 s2 : string) :
  insertSpaces s1 = insertSpaces s2 → s1 = s2.
Proof.
  intros Heq. apply (f_equal (λ s, strings.Split s LF)) in Heq.
  rewrite !insertSpaces_lines in Heq.
  rewrite !Split_lines in Heq by (by apply splitFrom_all_byteFree).
  apply app_inj_tail in Heq as [Heq _].
  apply (inj (fmap (String.append "   "))) in Heq.
  rewrite <- (Join_Split s1 "010"), <- (Join_Split s2 "010").
  unfold LF in Heq. by rewrite Heq.
Qed.

(** ** [normalizePath] *)

Lemma replaceFrom_byte_hit (c : ascii) (new rest : string) :
  strings.replaceFrom (String c "") new 0 (String c rest)
  = new +:+ strings.replaceFrom (String c "") new 0 rest.
Proof.
  change (strings.replaceFrom (String c "") new 0 (String c rest))
    with (if String.prefix (String c "") (String c rest)
          then new +:+ strings.replaceFrom (String c "") new 0 rest
          else String c (strings.replaceFrom (String c "") new 0 rest)).
  by rewrite prefix_byte, bool_decide_true.
Qed.

Lemma replaceFrom_byte_miss (c d : ascii) (new rest : string) :
  d ≠ c →
  strings.replaceFrom (String c "") new 0 (String d rest)
  = String d (strings.replaceFrom (String c "") new 0 rest).
Proof.
  intros Hd.
  change (strings.replaceFrom (String c "") new 0 (String d rest))
    with (if String.prefix (String c "") (String d rest)
          then new +:+ strings.replaceFrom (String c "") new 0 rest
          else String d (strings.replaceFrom (String c "") new 0 rest)).
  by rewrite prefix_byte, bool_decide_false.
Qed.

(** Replacing a byte by a text without it leaves none. *)
Lemma ReplaceAll_byteFree (c : ascii) (s new : string) :
  byteFree c new → byteFree c (strings.ReplaceAll s (String c "") new).
Proof.
  intros Hnew. unfold strings.ReplaceAll.
  induction s as [|d s IH]; [done|].
  destruct (decide (d = c)) as [->|Hd].
  - rewrite replaceFrom_byte_hit. by apply byteFree_append.
  - rewrite replaceFrom_byte_miss by done. by split.
Qed.

(** Where the byte does not occur nothing is replaced. *)
Lemma ReplaceAll_absent (c : ascii) (s new : string) :
  byteFree c s → strings.ReplaceAll s (String c "") new = s.
Proof.
  unfold strings.ReplaceAll. induction s as [|d s IH]; [done|].
  intros [Hd Hs]. rewrite replaceFrom_byte_miss by done. by rewrite IH.
Qed.

(** The path after the replacement starts with a backslash when the path
    starts with [/] or with a backslash. *)
Lemma ReplaceAll_leading (path : string) :
  strings.HasPrefix (strings.ReplaceAll path "/" "\") "\"
  = strings.HasPrefix path "/" || strings.HasPrefix path "\".
Proof.
  destruct path as [|c rest]; [reflexivity|].
  unfold strings.ReplaceAll, strings.HasPrefix.
  destruct (decide (c = "/"%char)) as [->|Hc].
  - rewrite replaceFrom_byte_hit, append_cons, append_nil_l, !prefix_byte.
    reflexivity.
  - rewrite replaceFrom_byte_miss by done. rewrite !prefix_byte.
    by rewrite (bool_decide_false (c = "/"%char)).
Qed.

Lemma normalizePath_windows_shape (path : string) :
  byteFree "/" (normalizePath "windows" path)
  ∧ strings.HasPrefix (normalizePath "windows" path) "\" = false.
Proof.
  unfold normalizePath. rewrite decide_False by (by intros Hne; apply Hne).
  pose proof (ReplaceAll_byteFree "/" path "\") as Hfree.
  destruct (strings.HasPrefix (strings.ReplaceAll path "/" "\") "\") eqn:Hpre.
  - split; [|reflexivity]. repeat split; try done. by apply Hfree.
  - split; [by apply Hfree | done].
Qed.

(** A path without [/] that does not start with a backslash is left as it
    is, on every host. *)
Lemma normalizePath_fixed (GOOS path : string) :
  byteFree "/" path → strings.HasPrefix path "\" = false →
  normalizePath GOOS path = path.
Proof.
  intros Hfree Hpre. unfold normalizePath. case_decide; [done|].
  by rewrite ReplaceAll_absent, Hpre.
Qed.

Lemma normalizePath_other (GOOS path : string) :
  GOOS ≠ "windows" → normalizePath GOOS path = path.
Proof. intros Hos. unfold normalizePath. by rewrite decide_True. Qed.

(** X3. [normalizePath] is idempotent: a normalized path is normalized to
    itself, on every host. *)
Theorem normalizePath_idempotent (GOOS path : string) :
  normalizePath GOOS (normalizePath GOOS path) = normalizePath GOOS path.
Proof.
  destruct (decide (GOOS = "windows")) as [->|Hos].
  - apply normalizePath_fixed; apply normalizePath_windows_shape.
  - by rewrite !normalizePath_other.
Qed.

(** X4. On Windows a normalized path holds no [/] and does not start with a
    backslash: it is the path with every [/] replaced by a backslash, with
    [c:] in front exactly when the path after the replacement starts with a
    backslash, that is when the path itself starts with [/] or a backslash.
    On every other host it is the path itself. *)
Theorem normalizePath_shape (GOOS path : string) :
  (GOOS = "windows" →
   byteFree "/" (normalizePath GOOS path)
   ∧ strings.HasPrefix (normalizePath GOOS path) "\" = false
   ∧ normalizePath GOOS path
     = (if strings.HasPrefix (strings.ReplaceAll path "/" "\") "\"
        then "c:" +:+ strings.ReplaceAll path "/" "\"
        else strings.ReplaceAll path "/" "\")
   ∧ strings.HasPrefix (strings.ReplaceAll path "/" "\") "\"
     = strings.HasPrefix path "/" || strings.HasPrefix path "\")
  ∧ (GOOS ≠ "windows" → normalizePath GOOS path = path).
Proof.
  split.
  - intros ->. destruct (normalizePath_windows_shape path) as [Hfree Hpre].
    split; [exact Hfree|]. split; [exact Hpre|]. split.
    + unfold normalizePath.
      by rewrite decide_False by (by intros Hne; apply Hne).
    + apply ReplaceAll_leading.
  - intros Hos. unfold normalizePath. by rewrite decide_True.
Qed.

(** ** Validation of the storage classes *)

Section Validation.

Variable GOOS : string.
Variable yaml_Unmarshal :
  string → ProvisionerConfiguration.t →
  ProvisionerConfiguration.t * option error.
Variable range : ∀ V : Type, gmap string V → list (string * V).
Hypothesis range_entries :
  ∀ (V : Type) (m : gmap string V), range V m ≡ₚ map_to_list m.

(** The body of the validation loop accepts what it has made, and makes
    nothing else of it. *)
Lemma configureClass_again (class class' : string)
    (config config' : MountConfig.t) :
  configureClass GOOS class config = inr config' →
  configureClass GOOS class' config' = inr config'.
Proof.
  intros Hstep%(configureClass_configured GOOS yaml_Unmarshal).
  destruct Hstep as (Hhost & Hmount & Hhost0 & Hmount0 & Hmode & Hmodes
                     & Hpattern & Hcommand & Hcommand0 & _).
  assert (Hh : MountConfig.HostDir config' ≠ "").
  { rewrite Hhost. by apply normalizePath_nonempty. }
  assert (Hm : MountConfig.MountDir config' ≠ "").
  { rewrite Hmount. by apply normalizePath_nonempty. }
  assert (Hp : MountConfig.NamePattern config' ≠ "").
  { rewrite Hpattern. by case_decide. }
  assert (Hv : MountConfig.VolumeMode config' ≠ "").
  { by destruct Hmodes as [-> | ->]. }
  assert (Hhi : normalizePath GOOS (MountConfig.HostDir config')
                = MountConfig.HostDir config').
  { rewrite Hhost. destruct (decide (GOOS = "windows")) as [->|Hos].
    - apply normalizePath_fixed; apply normalizePath_windows_shape.
    - by rewrite !normalizePath_other. }
  assert (Hmi : normalizePath GOOS (MountConfig.MountDir config')
                = MountConfig.MountDir config').
  { rewrite Hmount. destruct (decide (GOOS = "windows")) as [->|Hos].
    - apply normalizePath_fixed; apply normalizePath_windows_shape.
    - by rewrite !normalizePath_other. }
  assert (Hc : ∃ arg command,
             MountConfig.BlockCleanerCommand config' = Some (arg :: command)).
  { rewrite Hcommand.
    destruct (MountConfig.BlockCleanerCommand config) as [[|arg command]|];
      [done | by eauto | by eauto]. }
  destruct Hc as (arg & command & Hc).
  clear Hhost Hmount Hmode Hpattern Hcommand Hcommand0 Hhost0 Hmount0.
  destruct config' as [host mount cmd mode access fs pattern sel].
  simpl in *. subst cmd. unfold configureClass.
  cbn [MountConfig.BlockCleanerCommand].
  destruct (decide (length (arg :: command) < 1)) as [Hlen|_];
    [simpl in Hlen; lia|].
  cbn.
  rewrite (decide_False (P := mount = "" ∨ host = "")) by tauto.
  rewrite Hhi, Hmi.
  rewrite (decide_False (P := mode = "")) by done. simpl.
  rewrite (decide_False (P := pattern = "")) by done. simpl.
  rewrite decide_False; [reflexivity|].
  unfold v1.PersistentVolumeBlock, v1.PersistentVolumeFilesystem.
  intros [? ?]. by destruct Hmodes.
Qed.

Lemma configureClasses_fixed (entries : list (string * MountConfig.t))
    (classes : gmap string MountConfig.t) :
  (∀ class config, (class, config) ∈ entries →
     classes !! class = Some config
     ∧ configureClass GOOS class config = inr config) →
  configureClasses GOOS entries classes = (classes, None).
Proof.
  induction entries as [|[class config] rest IH]; intros Hall; [done|].
  destruct (Hall class config) as [Hlook Hstep]; [left|].
  simpl. rewrite Hstep, insert_id by done.
  apply IH. intros c cfg Hin. apply Hall. by right.
Qed.

(** X5. Validation is idempotent: when the decoder gives back a struct that
    an earlier call has returned without error, the call returns it as it
    is, without error. *)
Theorem ConfigMapDataToVolumeConfig_idempotent (data data' : gmap string string)
    (provisionerConfig provisionerConfig' result : ProvisionerConfiguration.t) :
  ConfigMapDataToVolumeConfig GOOS yaml_Unmarshal range data provisionerConfig
  = (result, None) →
  decoded yaml_Unmarshal range data' provisionerConfig' = (result, None) →
  ConfigMapDataToVolumeConfig GOOS yaml_Unmarshal range data' provisionerConfig'
  = (result, None).
Proof.
  intros Hfirst Hdecoded.
  unfold ConfigMapDataToVolumeConfig, decoded in *. rewrite Hdecoded.
  rewrite afterUnmarshal_decoded. cbv zeta.
  rewrite configureClasses_fixed.
  - simpl. by destruct result.
  - intros class config' Hin%(range_elem_of range range_entries).
    split; [done|].
    destruct (ConfigMapDataToVolumeConfig_classes GOOS yaml_Unmarshal range
                range_entries _ _ _ _ _ Hfirst Hin) as (config & _ & Hconf).
    revert Hfirst. unfold ConfigMapDataToVolumeConfig.
    destruct (yaml_Unmarshal _ provisionerConfig) as [parsed [err|]];
      [discriminate|].
    rewrite afterUnmarshal_decoded. cbv zeta. intros Hfirst.
    injection Hfirst as <- Hok. simpl in Hin.
    destruct (configureClasses_origin GOOS _ _ _ _ Hin)
      as [Hold|(cfg & Hin' & Hstep)].
    + apply (range_elem_of range range_entries) in Hold.
      destruct (configureClasses_stored GOOS _ _ _ _
                  (range_NoDup range range_entries _) Hok Hold)
        as (cfg'' & Hstep & Hlook').
      rewrite Hin in Hlook'. injection Hlook' as <-.
      by apply (configureClass_again class class) in Hstep.
    + by apply (configureClass_again class class) in Hstep.
Qed.

Lemma configureClasses_dom (entries : list (string * MountConfig.t))
    (classes : gmap string MountConfig.t) :
  (∀ class config, (class, config) ∈ entries → is_Some (classes !! class)) →
  dom (configureClasses GOOS entries classes).1 = dom classes.
Proof.
  revert classes. induction entries as [|[class config] rest IH];
    intros classes Hall; [done|].
  simpl. destruct (configureClass GOOS class config) as [err|config']; [done|].
  rewrite IH.
  - rewrite dom_insert_L.
    assert (class ∈ dom classes) by (apply elem_of_dom, (Hall class config); left).
    apply subseteq_union_1_L. by apply singleton_subseteq_l.
  - intros c cfg Hin. rewrite lookup_insert. case_decide; [by eauto|].
    apply (Hall c cfg). by right.
Qed.

(** X6. [ConfigMapDataToVolumeConfig] neither adds nor removes a storage
    class: the names in the struct it leaves are the names the decoder gave,
    whether it returns an error or not. *)
Theorem ConfigMapDataToVolumeConfig_names (data : gmap string string)
    (provisionerConfig : ProvisionerConfiguration.t) :
  dom (classesOf (ConfigMapDataToVolumeConfig GOOS yaml_Unmarshal range data
                    provisionerConfig).1)
  = dom (classesOf (decoded yaml_Unmarshal range data provisionerConfig).1).
Proof.
  unfold ConfigMapDataToVolumeConfig, decoded, classesOf.
  destruct (yaml_Unmarshal _ _) as [parsed [err|]]; [done|].
  rewrite afterUnmarshal_decoded. simpl. apply configureClasses_dom.
  intros class config Hin%(range_elem_of range range_entries). by eauto.
Qed.

(** The error of the loop is the error of its body on some entry. *)
Lemma configureClasses_error_origin (entries : list (string * MountConfig.t))
    (classes : gmap string MountConfig.t) (err : error) :
  (configureClasses GOOS entries classes).2 = Some err →
  ∃ class config,
    (class, config) ∈ entries ∧ configureClass GOOS class config = inl err.
Proof.
  revert classes. induction entries as [|[class config] rest IH];
    intros classes; simpl; [discriminate|].
  destruct (configureClass GOOS class config) as [err'|config'] eqn:Hstep; simpl.
  - intros [= ->]. exists class, config. split; [left | done].
  - intros (c & cfg & Hin & Herr)%IH. exists c, cfg. split; [by right | done].
Qed.

(** The three errors of the body, in the order the body tests for them. *)
Lemma configureClass_error_cases (class : string) (config : MountConfig.t)
    (err : error) :
  configureClass GOOS class config = inl err →
  (MountConfig.BlockCleanerCommand config = Some []
   ∧ err = Errorf "Invalid empty block cleaner command for class %v"
             [ArgString class])
  ∨ (MountConfig.BlockCleanerCommand config ≠ Some []
     ∧ (MountConfig.MountDir config = "" ∨ MountConfig.HostDir config = "")
     ∧ err = Errorf "Storage Class %v is misconfigured, missing HostDir or MountDir parameter"
               [ArgString class])
  ∨ (MountConfig.BlockCleanerCommand config ≠ Some []
     ∧ MountConfig.MountDir config ≠ "" ∧ MountConfig.HostDir config ≠ ""
     ∧ MountConfig.VolumeMode config ≠ ""
     ∧ MountConfig.VolumeMode config ≠ "Filesystem"
     ∧ MountConfig.VolumeMode config ≠ "Block"
     ∧ err = Errorf "unsupported volume mode %s"
               [ArgString (MountConfig.VolumeMode config)]).
Proof.
  unfold configureClass.
  destruct (MountConfig.BlockCleanerCommand config) as [[|arg command]|] eqn:Hcommand.
  - destruct (decide (length (@nil string) < 1)) as [_|Hlen];
      [|simpl in Hlen; lia].
    intros [= <-]. by left.
  - destruct (decide (length (arg :: command) < 1)) as [Hlen|_];
      [simpl in Hlen; lia|].
    destruct (decide (MountConfig.MountDir config = "" ∨ MountConfig.HostDir config = ""))
      as [Hdirs|Hdirs].
    { intros [= <-]. right. left. by repeat split. }
    cbn.
    destruct (decide (MountConfig.VolumeMode config = "")) as [Hmode|Hmode]; cbn;
      destruct (decide (MountConfig.NamePattern config = "")) as [Hp|Hp]; cbn;
      unfold DefaultVolumeMode, v1.PersistentVolumeBlock,
        v1.PersistentVolumeFilesystem;
      case_decide as Hfinal; intros [= <-];
      try (by destruct Hfinal as [_ Hfinal]);
      right; right; repeat split; try tauto; done.
  - cbn.
    destruct (decide (MountConfig.MountDir config = "" ∨ MountConfig.HostDir config = ""))
      as [Hdirs|Hdirs].
    { intros [= <-]. right. left. by repeat split. }
    cbn.
    destruct (decide (MountConfig.VolumeMode config = "")) as [Hmode|Hmode]; cbn;
      destruct (decide (MountConfig.NamePattern config = "")) as [Hp|Hp]; cbn;
      unfold DefaultVolumeMode, v1.PersistentVolumeBlock,
        v1.PersistentVolumeFilesystem;
      case_decide as Hfinal; intros [= <-];
      try (by destruct Hfinal as [_ Hfinal]);
      right; right; repeat split; try tauto; done.
Qed.

(** X7. The error that [ConfigMapDataToVolumeConfig] returns after a
    successful decoding names a storage class the decoder gave, and says
    what is wrong with it: an empty cleaner command first, then a missing
    directory, then a volume mode that is not supported. *)
Theorem ConfigMapDataToVolumeConfig_error_message (data : gmap string string)
    (provisionerConfig parsed : ProvisionerConfiguration.t) (err : error) :
  decoded yaml_Unmarshal range data provisionerConfig = (parsed, None) →
  (ConfigMapDataToVolumeConfig GOOS yaml_Unmarshal range data
     provisionerConfig).2 = Some err →
  ∃ class config,
    classesOf parsed !! class = Some config
    ∧ ((MountConfig.BlockCleanerCommand config = Some []
        ∧ err = Errorf "Invalid empty block cleaner command for class %v"
                  [ArgString class])
       ∨ (MountConfig.BlockCleanerCommand config ≠ Some []
          ∧ (MountConfig.MountDir config = "" ∨ MountConfig.HostDir config = "")
          ∧ err = Errorf "Storage Class %v is misconfigured, missing HostDir or MountDir parameter"
                    [ArgString class])
       ∨ (MountConfig.BlockCleanerCommand config ≠ Some []
          ∧ MountConfig.MountDir config ≠ "" ∧ MountConfig.HostDir config ≠ ""
          ∧ MountConfig.VolumeMode config ≠ ""
          ∧ MountConfig.VolumeMode config ≠ "Filesystem"
          ∧ MountConfig.VolumeMode config ≠ "Block"
          ∧ err = Errorf "unsupported volume mode %s"
                    [ArgString (MountConfig.VolumeMode config)])).
Proof.
  unfold decoded, ConfigMapDataToVolumeConfig, classesOf. intros ->.
  rewrite afterUnmarshal_decoded. simpl.
  intros (class & config & Hin & Herr)%configureClasses_error_origin.
  exists class, config. split; [by apply (range_elem_of range range_entries)|].
  by apply configureClass_error_cases.
Qed.

End Validation.

(** X8. On Windows, after [ConfigMapDataToVolumeConfig] returns without
    error, no directory of a storage class holds a [/] or starts with a
    backslash. *)
Theorem ConfigMapDataToVolumeConfig_windows_dirs
    (yaml_Unmarshal : string → ProvisionerConfiguration.t →
                      ProvisionerConfiguration.t * option error)
    (range : ∀ V : Type, gmap string V → list (string * V))
    (range_entries : ∀ (V : Type) (m : gmap string V), range V m ≡ₚ map_to_list m)
    (data : gmap string string)
    (provisionerConfig result : ProvisionerConfiguration.t)
    (class : string) (config : MountConfig.t) :
  ConfigMapDataToVolumeConfig "windows" yaml_Unmarshal range data
    provisionerConfig = (result, None) →
  classesOf result !! class = Some config →
  byteFree "/" (MountConfig.HostDir config)
  ∧ byteFree "/" (MountConfig.MountDir config)
  ∧ strings.HasPrefix (MountConfig.HostDir config) "\" = false
  ∧ strings.HasPrefix (MountConfig.MountDir config) "\" = false.
Proof.
  intros Hret Hlook.
  destruct (ConfigMapDataToVolumeConfig_classes "windows" yaml_Unmarshal range
              range_entries _ _ _ _ _ Hret Hlook)
    as (parsed & _ & Hhost & Hmount & _).
  rewrite Hhost, Hmount.
  destruct (normalizePath_windows_shape (MountConfig.HostDir parsed)).
  destruct (normalizePath_windows_shape (MountConfig.MountDir parsed)).
  by repeat split.
Qed.

(** ** What [CreateLocalPVSpec] builds *)

(** What is not patched is carried over: name, labels, reclaim policy,
    class, mount options, volume mode and local source come from the
    configuration, the capacity is the one entry [storage], and the owner
    references are the owner alone or none. *)
Lemma CreateLocalPVSpec_fields (config : LocalPVConfig.t)
    (pv : PersistentVolume.t) :
  CreateLocalPVSpec config = Some pv →
  let meta := PersistentVolume.ObjectMeta pv in
  let spec := PersistentVolume.Spec pv in
  ObjectMeta.Name meta = LocalPVConfig.Name config
  ∧ ObjectMeta.Labels meta = LocalPVConfig.Labels config
  ∧ PersistentVolumeSpec.Local spec
    = Some {| v1.Path := LocalPVConfig.HostPath config;
              v1.FSType := LocalPVConfig.FsType config |}
  ∧ PersistentVolumeSpec.VolumeMode spec = Some (LocalPVConfig.VolumeMode config)
  ∧ PersistentVolumeSpec.Capacity spec
    = {[ "storage" := {| resource.value := LocalPVConfig.Capacity config;
                         resource.format := resource.BinarySI |} ]}
  ∧ ObjectMeta.OwnerReferences meta
    = (if LocalPVConfig.SetPVOwnerRef config
       then option_list (LocalPVConfig.OwnerReference config)
       else []).
Proof.
  unfold CreateLocalPVSpec.
  destruct (LocalPVConfig.SetPVOwnerRef config);
    [destruct (LocalPVConfig.OwnerReference config); [|discriminate]|];
    intros [= <-];
    destruct (LocalPVConfig.UseAlphaAPI config);
    destruct (decide (LocalPVConfig.AccessMode config = ""));
    by repeat split.
Qed.

(** X9. A volume that [CreateLocalPVSpec] returns passes
    [IsLocalPVWithStorageClass] exactly for the lists of class names that
    hold its own class. *)
Theorem CreateLocalPVSpec_is_local (config : LocalPVConfig.t)
    (pv : PersistentVolume.t) (storageClassNames : list string) :
  CreateLocalPVSpec config = Some pv →
  IsLocalPVWithStorageClass pv storageClassNames = true
  ↔ LocalPVConfig.StorageClass config ∈ storageClassNames.
Proof.
  unfold CreateLocalPVSpec, IsLocalPVWithStorageClass.
  destruct (LocalPVConfig.SetPVOwnerRef config);
    [destruct (LocalPVConfig.OwnerReference config); [|discriminate]|];
    intros [= <-];
    destruct (LocalPVConfig.UseAlphaAPI config);
    destruct (decide (LocalPVConfig.AccessMode config = ""));
    cbn; apply matchesAny_elem_of.
Qed.

(** X10. The annotations of a returned volume are the provisioner annotation
    and, with the alpha API, the affinity annotation: no other key is set. *)
Theorem CreateLocalPVSpec_annotation_keys (config : LocalPVConfig.t)
    (pv : PersistentVolume.t) :
  CreateLocalPVSpec config = Some pv →
  dom (annotationsOf pv)
  = if LocalPVConfig.UseAlphaAPI config
    then {[ "pv.kubernetes.io/provisioned-by";
            "volume.alpha.kubernetes.io/node-affinity" ]}
    else {[ "pv.kubernetes.io/provisioned-by" ]}.
Proof.
  unfold CreateLocalPVSpec, annotationsOf.
  destruct (LocalPVConfig.SetPVOwnerRef config);
    [destruct (LocalPVConfig.OwnerReference config); [|discriminate]|];
    intros [= <-];
    destruct (LocalPVConfig.UseAlphaAPI config);
    destruct (decide (LocalPVConfig.AccessMode config = ""));
    cbn; unfold AnnProvisionedBy, AlphaStorageNodeAffinityAnnotation;
    rewrite ?dom_insert_L, ?dom_singleton_L; try reflexivity;
    apply union_comm_L.
Qed.

(** X11. From discovery to cleanup: for a volume created with the host path
    [filepath.Join(HostDir, fileName)], [fileName] a name below the
    directory, [GetContainerPath] finds [filepath.Join(MountDir, fileName)]. *)
Theorem CreateLocalPVSpec_container_path (config : LocalPVConfig.t)
    (mount : MountConfig.t) (fileName : string) (pv : PersistentVolume.t) :
  fileName ≠ "" →
  strings.HasPrefix fileName "/" = false →
  ".." ∉ strings.Split (filepath.Clean fileName) "/" →
  LocalPVConfig.HostPath config
  = filepath.Join [MountConfig.HostDir mount; fileName] →
  CreateLocalPVSpec config = Some pv →
  GetContainerPath pv mount
  = Some (filepath.Join [MountConfig.MountDir mount; fileName], None).
Proof.
  intros Hne Hrel Hclean Hpath Hpv.
  pose proof (below_intro _ Hne Hrel Hclean) as Hbelow.
  destruct (CreateLocalPVSpec_fields _ _ Hpv) as (_ & _ & Hlocal & _).
  unfold GetContainerPath. rewrite Hlocal. simpl. rewrite Hpath.
  destruct (Rel_Join_below (MountConfig.HostDir mount) _ Hbelow)
    as (rel & -> & Hrel' & Hstack).
  f_equal. f_equal. by apply Join_below_eq.
Qed.

(** ** The mount name as a label *)

Lemma alnum_code (c : ascii) (n : Z) :
  Z.of_N (N_of_ascii c) = n → (48 ≤ n ≤ 57)%Z ∨ (97 ≤ n ≤ 122)%Z → alnum c.
Proof. intros <-. done. Qed.

Lemma hexDigit_alnum (c : ascii) : is_Some (hexDigit c) → alnum c.
Proof.
  unfold hexDigit, alnum. cbv zeta. intros [d Hd].
  repeat case_decide; try discriminate; lia.
Qed.

Lemma list_ascii_append (a b : string) :
  String.list_ascii_of_string (a +:+ b)
  = String.list_ascii_of_string a ++ String.list_ascii_of_string b.
Proof.
  induction a as [|c a IH]; [done|]. rewrite append_cons. simpl. by rewrite IH.
Qed.

Lemma mount_prefix_bytes :
  String.list_ascii_of_string "mount-" = ["m"; "o"; "u"; "n"; "t"; "-"]%char
  ∧ alnum "m"
  ∧ Forall (λ c, alnum c ∨ c = "-"%char) ["m"; "o"; "u"; "n"; "t"; "-"]%char.
Proof.
  split; [done|]. split; [apply (alnum_code _ 109); [done|lia]|].
  repeat (apply Forall_cons; split;
          [first [right; reflexivity
                 | left; eapply alnum_code; [vm_compute; reflexivity|lia]]|]).
  apply Forall_nil_2.
Qed.

(** The digits that the loop of [%x] writes: as many as the fuel allows at
    most, at least one, each a hexadecimal digit. *)
Lemma fmtHex_digits (fuel : nat) (u : Z) (acc : string) :
  (0 ≤ u < 16 ^ Z.of_nat (S fuel))%Z →
  ∃ digits : list ascii,
    String.list_ascii_of_string (fmt.fmtHex fuel u acc)
    = digits ++ String.list_ascii_of_string acc
    ∧ 1 ≤ length digits ≤ S fuel
    ∧ Forall alnum digits.
Proof.
  revert u acc. induction fuel as [|fuel IH]; intros u acc Hu.
  - exists [fmt.digit u]. repeat split; try done; try (simpl; lia).
    constructor; [|done]. apply hexDigit_alnum.
    rewrite hexDigit_digit; [done|].
    change (16 ^ Z.of_nat 1)%Z with 16%Z in Hu. lia.
  - cbn [fmt.fmtHex]. case_decide as Hbig.
    + destruct (IH (Z.shiftr u 4) (String (fmt.digit (Z.land u 15)) acc))
        as (digits & Heq & Hlen & Hall).
      { rewrite Z.shiftr_div_pow2 by lia. change (2 ^ 4)%Z with 16%Z.
        rewrite Nat2Z.inj_succ, Z.pow_succ_r in Hu by lia.
        split; [apply Z.div_pos; lia|].
        apply Z.div_lt_upper_bound; lia. }
      exists (digits ++ [fmt.digit (Z.land u 15)]). rewrite Heq. simpl.
      rewrite <- app_assoc. repeat split; try done.
      * rewrite length_app. simpl. lia.
      * rewrite length_app. simpl. lia.
      * apply Forall_app. split; [done|]. constructor; [|done].
        apply hexDigit_alnum. rewrite hexDigit_digit; [done|].
        change 15%Z with (Z.ones 4). rewrite Z.land_ones by lia.
        change (2 ^ 4)%Z with 16%Z. apply Z.mod_pos_bound. lia.
    + exists [fmt.digit u]. repeat split; try done; try (simpl; lia).
      constructor; [|done]. apply hexDigit_alnum.
      rewrite hexDigit_digit; [done|lia].
Qed.

(** X12. The name that [GenerateMountName] gives is a DNS label of 7 to 14
    bytes, whatever the directories are. *)
Theorem GenerateMountName_label (mount : MountConfig.t) :
  dns1123Label (GenerateMountName mount)
  ∧ 7 ≤ String.length (GenerateMountName mount) ≤ 14.
Proof.
  unfold GenerateMountName, fmt.Sprintf_x, fnv.Sum32.
  set (h := fnv.Write _ _).
  assert (Hh : (0 ≤ h < 2 ^ 32)%Z).
  { subst h. apply fnv_Write_range, fnv_Write_range.
    unfold fnv.New32a, fnv.offset32. lia. }
  destruct (fmtHex_digits 7 h "") as (digits & Heq & Hlen & Hall).
  { change (16 ^ Z.of_nat 8)%Z with (2 ^ 32)%Z. lia. }
  change (String.list_ascii_of_string "") with (@nil ascii) in Heq.
  rewrite app_nil_r in Heq.
  assert (Hbytes : String.list_ascii_of_string ("mount-" +:+ fmt.fmtHex 7 h "")
                   = String.list_ascii_of_string "mount-" ++ digits).
  { by rewrite list_ascii_append, Heq. }
  assert (Hlength : String.length ("mount-" +:+ fmt.fmtHex 7 h "")
                    = 6 + length digits).
  { rewrite length_append, <- (String.string_of_list_ascii_of_string (fmt.fmtHex 7 h "")), Heq.
    clear. simpl. f_equal. induction digits; simpl; [done|]. by f_equal. }
  split; [|lia].
  unfold dns1123Label. cbv zeta. rewrite Hbytes. repeat split.
  - rewrite length_app. simpl. lia.
  - rewrite length_app. simpl. lia.
  - apply Forall_app. split.
    + rewrite (proj1 mount_prefix_bytes). apply mount_prefix_bytes.
    + eapply Forall_impl; [exact Hall|]. by left.
  - rewrite (proj1 mount_prefix_bytes). intros c [= <-].
    apply mount_prefix_bytes.
  - intros c Hlast. rewrite last_app in Hlast.
    destruct (last digits) as [d|] eqn:Hd.
    + injection Hlast as <-. rewrite Forall_forall in Hall. apply Hall.
      apply last_Some in Hd as [l ->]. apply elem_of_app. right. left.
    + apply last_None in Hd. rewrite Hd in Hlen. simpl in Hlen. lia.
Qed.

(** ** [AnyNodeExists] and [VolumeConfigToConfigMapData] *)

Section NodeLookup.
Variable IsNotFound : error → bool.
Variable labels_NewRequirement :
  string → labels.Operator → list string → error + labels.Requirement.

(** X13. [AnyNodeExists] answers [false] exactly when every name is absent; any
    other answer of the lister, and an invalid requirement, count as
    "exists". *)
Theorem AnyNodeExists_false_iff (nodeLister : NodeLister.t)
    (nodeNames : list string) :
  AnyNodeExists IsNotFound labels_NewRequirement nodeLister nodeNames = false
  ↔ Forall (nodeAbsent IsNotFound labels_NewRequirement nodeLister) nodeNames.
Proof.
  induction nodeNames as [|nodeName rest IH]; [done|].
  rewrite Forall_cons, <- IH. unfold nodeAbsent. cbn [AnyNodeExists].
  destruct (NodeLister.Get nodeLister nodeName) as [node [err|]]; simpl.
  - destruct (IsNotFound err) eqn:Hnf; simpl.
    + destruct (labels_NewRequirement _ _ _) as [rerr|req].
      { split; [done|]. by intros [(_ & req & [=] & _) _]. }
      destruct (NodeLister.List _ _) as [nodes [lerr|]] eqn:Hlist.
      { split; [done|]. intros [(_ & req' & [= <-] & Hl) _]. congruence. }
      destruct nodes as [|n nodes].
      * rewrite bool_decide_false by (simpl; lia). split.
        -- intros Hrest. split; [|done]. split; [by eauto|]. by exists req.
        -- by intros [_ ?].
      * rewrite bool_decide_true by (simpl; lia). split; [done|].
        intros [(_ & req' & [= <-] & Hl) _]. congruence.
    + split; [done|]. intros [((err' & [= <-] & Hnf') & _) _]. congruence.
  - split; [done|]. by intros [((err' & [=] & _) & _) _].
Qed.

(** X14. [AnyNodeExists] over two lists of names is the disjunction of the
    two answers: a name is looked up only when no name before it exists. *)
Theorem AnyNodeExists_app (nodeLister : NodeLister.t) (names1 names2 : list string) :
  AnyNodeExists IsNotFound labels_NewRequirement nodeLister (names1 ++ names2)
  = AnyNodeExists IsNotFound labels_NewRequirement nodeLister names1
    || AnyNodeExists IsNotFound labels_NewRequirement nodeLister names2.
Proof.
  induction names1 as [|name names1 IH]; [done|].
  cbn [app AnyNodeExists].
  destruct (NodeLister.Get nodeLister name) as [node err].
  destruct (match err with None => true | Some e => negb (IsNotFound e) end);
    [done|].
  destruct (labels_NewRequirement _ _ _) as [|req]; [done|].
  destruct (NodeLister.List _ _) as [nodes lerr].
  by destruct (match lerr with Some _ => true | None => _ end).
Qed.
End NodeLookup.

Section Marshalling.
Variable yaml_Marshal : yaml.value → string * option error.

(** X15. The map that [VolumeConfigToConfigMapData] returns without error
    holds the storage classes and the API version, each as marshalled, and
    the node labels when there are some; it holds no other key. *)
Theorem VolumeConfigToConfigMapData_keys (config : ProvisionerConfiguration.t)
    (data : gmap string string) :
  VolumeConfigToConfigMapData yaml_Marshal config = (data, None) →
  dom data
  = {["storageClassMap"; "useAlphaAPI"]}
    ∪ (if decide (ProvisionerConfiguration.NodeLabelsForPV config = [])
       then ∅ else {["nodeLabelsForPV"]})
  ∧ data !! "storageClassMap"
    = Some (yaml_Marshal
              (yaml.Classes (ProvisionerConfiguration.StorageClassConfig config))).1
  ∧ data !! "useAlphaAPI"
    = Some (yaml_Marshal
              (yaml.Bool (ProvisionerConfiguration.UseAlphaAPI config))).1
  ∧ (ProvisionerConfiguration.NodeLabelsForPV config ≠ [] →
     data !! "nodeLabelsForPV"
     = Some (yaml_Marshal
               (yaml.Strings (ProvisionerConfiguration.NodeLabelsForPV config))).1).
Proof.
  unfold VolumeConfigToConfigMapData. cbv zeta.
  destruct (yaml_Marshal (yaml.Classes _)) as [val [err|]]; [discriminate|].
  destruct (yaml_Marshal (yaml.Bool _)) as [ver verr].
  destruct (ProvisionerConfiguration.NodeLabelsForPV config) as [|label labels]
    eqn:Hlabels.
  - rewrite decide_False by (simpl; lia).
    destruct verr; [discriminate|]. intros [= <-].
    rewrite decide_True by done.
    split; [|by repeat split].
    rewrite !dom_insert_L, dom_empty_L. set_solver.
  - rewrite decide_True by (simpl; lia).
    destruct (yaml_Marshal (yaml.Strings _)) as [nodeLabels [nlErr|]];
      [discriminate|].
    destruct verr; [discriminate|]. intros [= <-].
    rewrite decide_False by done.
    split; [|by repeat split].
    rewrite !dom_insert_L, dom_empty_L. set_solver.
Qed.

(** X16. [VolumeConfigToConfigMapData] fails exactly when one of the values it
    marshals fails, the node labels only when there are some; the map it
    returns then is nil. *)
Theorem VolumeConfigToConfigMapData_error_iff (config : ProvisionerConfiguration.t) :
  (is_Some (VolumeConfigToConfigMapData yaml_Marshal config).2
   ↔ is_Some (yaml_Marshal
                (yaml.Classes (ProvisionerConfiguration.StorageClassConfig config))).2
     ∨ (ProvisionerConfiguration.NodeLabelsForPV config ≠ []
        ∧ is_Some (yaml_Marshal
                     (yaml.Strings (ProvisionerConfiguration.NodeLabelsForPV config))).2)
     ∨ is_Some (yaml_Marshal
                  (yaml.Bool (ProvisionerConfiguration.UseAlphaAPI config))).2)
  ∧ (is_Some (VolumeConfigToConfigMapData yaml_Marshal config).2 →
     (VolumeConfigToConfigMapData yaml_Marshal config).1 = ∅).
Proof.
  unfold VolumeConfigToConfigMapData. cbv zeta.
  destruct (yaml_Marshal (yaml.Classes _)) as [val [err|]]; simpl.
  { split; [|done]. split; [by left|by eauto]. }
  destruct (yaml_Marshal (yaml.Bool _)) as [ver verr].
  destruct (ProvisionerConfiguration.NodeLabelsForPV config) as [|label labels].
  - rewrite decide_False by (simpl; lia). destruct verr; simpl.
    + split; [|done]. split; [by eauto|by eauto].
    + split; [|by intros [? [=]]]. split; [by intros [? [=]]|].
      intros [[? [=]]|[[? _]|[? [=]]]]. done.
  - rewrite decide_True by (simpl; lia).
    destruct (yaml_Marshal (yaml.Strings _)) as [nodeLabels [nlErr|]]; simpl.
    { split; [|done]. split; [|by eauto]. intros _. right. left. by eauto. }
    destruct verr; simpl.
    + split; [|done]. split; [by eauto|by eauto].
    + split; [|by intros [? [=]]]. split; [by intros [? [=]]|].
      intros [[? [=]]|[[_ [? [=]]]|[? [=]]]].
Qed.
End Marshalling.

(** ** Paths, continued *)

Lemma Clean_HasPrefix (path : string) :
  strings.HasPrefix (filepath.Clean path) "/" = strings.HasPrefix path "/".
Proof.
  rewrite Clean_stack.
  by destruct (render_facts _ _ (stackOf_canonical (strings.HasPrefix path "/") path))
    as (_ & -> & _).
Qed.

Lemma Clean_idempotent (path : string) :
  filepath.Clean (filepath.Clean path) = filepath.Clean path.
Proof. rewrite (Clean_stack path). apply Clean_rendered, stackOf_canonical. Qed.

(** [Rel] finds no path between a rooted and a relative path. *)
Lemma Rel_mixed_roots (basepath targpath : string) :
  strings.HasPrefix basepath "/" ≠ strings.HasPrefix targpath "/" →
  filepath.Rel basepath targpath
  = ("", Some (ExternalError ("Rel: can't make " +:+ targpath +:+ " relative to "
                              +:+ basepath))).
Proof.
  intros Hroots. unfold filepath.Rel. cbv zeta.
  assert (Hbase : strings.HasPrefix
                    (if decide (filepath.Clean basepath = ".") then ""
                     else filepath.Clean basepath) "/"
                  = strings.HasPrefix basepath "/").
  { case_decide as Hdot; [|apply Clean_HasPrefix].
    rewrite <- (Clean_HasPrefix basepath), Hdot. reflexivity. }
  rewrite decide_False.
  - rewrite Hbase, Clean_HasPrefix. by rewrite decide_True.
  - intros Heq. apply Hroots.
    by rewrite <- (Clean_HasPrefix basepath), <- (Clean_HasPrefix targpath), Heq.
Qed.

(** [Rel] from a path to a path that cleans to the same. *)
Lemma Rel_same (basepath targpath : string) :
  filepath.Clean targpath = filepath.Clean basepath →
  filepath.Rel basepath targpath = (".", None).
Proof. intros Heq. unfold filepath.Rel. cbv zeta. by rewrite decide_True. Qed.

Lemma Join_dot (dir : string) : filepath.Join [dir; "."] = filepath.Clean dir.
Proof.
  cbn [filepath.Join]. case_decide as Hdir; [by subst|].
  change (strings.Join [dir; "."] "/") with (dir +:+ "/" +:+ ".").
  rewrite !Clean_stack.
  rewrite HasPrefix_append by done. f_equal.
  unfold stackOf. rewrite Split_append, fold_left_app.
  rewrite (Split_sepFree "."); [|done]. reflexivity.
Qed.

(** X17. A volume whose local path is rooted when [HostDir] is not, or the
    other way round, has no container path: [GetContainerPath] returns the
    error of [filepath.Rel], wrapped. *)
Theorem GetContainerPath_mixed_roots (pv : PersistentVolume.t)
    (config : MountConfig.t) (local : v1.LocalVolumeSource) :
  PersistentVolumeSpec.Local (PersistentVolume.Spec pv) = Some local →
  strings.HasPrefix (MountConfig.HostDir config) "/"
  ≠ strings.HasPrefix (v1.Path local) "/" →
  GetContainerPath pv config
  = Some ("", Some (Errorf "Could not get relative path for pv %q: %v"
                      [ArgString (ObjectMeta.Name (PersistentVolume.ObjectMeta pv));
                       ArgError (ExternalError
                                   ("Rel: can't make " +:+ v1.Path local
                                    +:+ " relative to "
                                    +:+ MountConfig.HostDir config))])).
Proof.
  intros Hlocal Hroots. unfold GetContainerPath.
  by rewrite Hlocal, Rel_mixed_roots.
Qed.

(** X18. The volume at the discovery directory itself, however its path is
    written, is at the mount directory in the container. *)
Theorem GetContainerPath_at_host_dir (pv : PersistentVolume.t)
    (config : MountConfig.t) (local : v1.LocalVolumeSource) :
  PersistentVolumeSpec.Local (PersistentVolume.Spec pv) = Some local →
  filepath.Clean (v1.Path local) = filepath.Clean (MountConfig.HostDir config) →
  GetContainerPath pv config
  = Some (filepath.Clean (MountConfig.MountDir config), None).
Proof.
  intros Hlocal Hsame. unfold GetContainerPath.
  by rewrite Hlocal, Rel_same, Join_dot.
Qed.

(** ** [LoadProvisionerConfigs], continued *)

Section Files.
Variable GOOS : string.
Variable yaml_Unmarshal :
  string → ProvisionerConfiguration.t → ProvisionerConfiguration.t * option error.
Variable range : ∀ V : Type, gmap string V → list (string * V).
Variable ioutil_ReadDir : string → list FileInfo.t * option error.
Variable ioutil_ReadFile : string → string * option error.

Lemma configFiles_cons (file : FileInfo.t) (files : list FileInfo.t) :
  configFiles (file :: files)
  = if negb (FileInfo.IsDir file)
    then if decide (FileInfo.Name file ≠ "..data")
         then FileInfo.Name file :: configFiles files
         else configFiles files
    else configFiles files.
Proof.
  unfold configFiles. rewrite filter_cons.
  destruct (decide (FileInfo.IsDir file = false ∧ FileInfo.Name file ≠ "..data"))
    as [[-> Hname]|Hnot]; simpl.
  - by rewrite decide_True.
  - destruct (FileInfo.IsDir file); simpl; [done|].
    rewrite decide_False; [done|]. intros Hname. by apply Hnot.
Qed.

(** The loop, when every file can be read: the entries of [data] and the
    contents of the files, a file overriding an entry of its name. *)
Lemma readConfigFiles_readable (configPath : string) (files : list FileInfo.t)
    (data : gmap string string) :
  (∀ name, name ∈ configFiles files →
     (ioutil_ReadFile (path.Join [configPath; name])).2 = None) →
  ∃ data',
    readConfigFiles ioutil_ReadFile configPath files data = inr data'
    ∧ ∀ name,
        data' !! name
        = if decide (name ∈ configFiles files)
          then Some (ioutil_ReadFile (path.Join [configPath; name])).1
          else data !! name.
Proof.
  revert data. induction files as [|file files IH]; intros data Hread.
  - exists data. split; [done|]. intros name. rewrite decide_False; [done|].
    unfold configFiles. simpl. apply not_elem_of_nil.
  - cbn [readConfigFiles]. rewrite configFiles_cons in Hread |- *.
    destruct (negb (FileInfo.IsDir file)); [|by apply IH].
    case_decide as Hname; [|by apply IH].
    pose proof (Hread (FileInfo.Name file) ltac:(left)) as Hfile.
    destruct (ioutil_ReadFile (path.Join [configPath; FileInfo.Name file]))
      as [fileContents err] eqn:Hcontents.
    simpl in Hfile. subst err.
    destruct (IH (<[FileInfo.Name file := fileContents]> data))
      as (data' & Hloop & Hdata').
    { intros name Hin. apply Hread. by right. }
    exists data'. split; [done|]. intros name. rewrite Hdata'.
    destruct (decide (name ∈ configFiles files)) as [Hin|Hnotin].
    + rewrite decide_True; [done|by right].
    + destruct (decide (name = FileInfo.Name file)) as [->|Hne].
      * rewrite lookup_insert_eq, decide_True by left. by rewrite Hcontents.
      * rewrite lookup_insert_ne by done. rewrite decide_False; [done|].
        by intros [?|?]%elem_of_cons.
Qed.

(** The loop, when a file cannot be read. *)
Lemma readConfigFiles_unreadable (configPath : string) (files : list FileInfo.t)
    (data : gmap string string) (name : string) :
  name ∈ configFiles files →
  is_Some (ioutil_ReadFile (path.Join [configPath; name])).2 →
  ∃ name' err,
    name' ∈ configFiles files
    ∧ (ioutil_ReadFile (path.Join [configPath; name'])).2 = Some err
    ∧ readConfigFiles ioutil_ReadFile configPath files data = inl err.
Proof.
  revert data. induction files as [|file files IH]; intros data Hin Herr.
  - unfold configFiles in Hin. simpl in Hin. by apply elem_of_nil in Hin.
  - cbn [readConfigFiles]. rewrite configFiles_cons in Hin |- *.
    destruct (negb (FileInfo.IsDir file)); [|by apply IH].
    case_decide as Hname; [|by apply IH].
    destruct (ioutil_ReadFile (path.Join [configPath; FileInfo.Name file]))
      as [fileContents [err|]] eqn:Hcontents.
    + exists (FileInfo.Name file), err. split; [left|]. by rewrite Hcontents.
    + apply elem_of_cons in Hin as [->|Hin].
      { rewrite Hcontents in Herr. by destruct Herr. }
      destruct (IH (<[FileInfo.Name file := fileContents]> data) Hin Herr)
        as (name' & err & Hin' & Hfile & Hloop).
      exists name', err. split; [by right|done].
Qed.

(** X19. When the directory and every file in it can be read,
    [LoadProvisionerConfigs] is [ConfigMapDataToVolumeConfig] on the map
    from the names of the files (directories and [..data] apart) to their
    contents. *)
Theorem LoadProvisionerConfigs_files (configPath : string)
    (provisionerConfig : ProvisionerConfiguration.t) (files : list FileInfo.t) :
  ioutil_ReadDir configPath = (files, None) →
  (∀ name, name ∈ configFiles files →
     (ioutil_ReadFile (path.Join [configPath; name])).2 = None) →
  ∃ data,
    LoadProvisionerConfigs GOOS yaml_Unmarshal range ioutil_ReadDir
      ioutil_ReadFile configPath provisionerConfig
    = ConfigMapDataToVolumeConfig GOOS yaml_Unmarshal range data provisionerConfig
    ∧ ∀ name,
        data !! name
        = if decide (name ∈ configFiles files)
          then Some (ioutil_ReadFile (path.Join [configPath; name])).1
          else None.
Proof.
  intros Hdir Hread.
  destruct (readConfigFiles_readable configPath files ∅ Hread)
    as (data & Hloop & Hdata).
  exists data. split.
  - unfold LoadProvisionerConfigs. by rewrite Hdir, Hloop.
  - intros name. rewrite Hdata. by rewrite lookup_empty.
Qed.

(** X20. When the directory cannot be read, or one of the files in it,
    [LoadProvisionerConfigs] returns the error of the read and leaves the
    struct as it was: nothing is decoded. *)
Theorem LoadProvisionerConfigs_read_error (configPath : string)
    (provisionerConfig : ProvisionerConfiguration.t) (files : list FileInfo.t)
    (dirErr : option error) :
  ioutil_ReadDir configPath = (files, dirErr) →
  (is_Some dirErr
   ∨ ∃ name, name ∈ configFiles files
             ∧ is_Some (ioutil_ReadFile (path.Join [configPath; name])).2) →
  ∃ err,
    LoadProvisionerConfigs GOOS yaml_Unmarshal range ioutil_ReadDir
      ioutil_ReadFile configPath provisionerConfig
    = (provisionerConfig, Some err)
    ∧ (dirErr = Some err
       ∨ dirErr = None
         ∧ ∃ name, name ∈ configFiles files
                   ∧ (ioutil_ReadFile (path.Join [configPath; name])).2 = Some err).
Proof.
  intros Hdir Hfail. unfold LoadProvisionerConfigs. rewrite Hdir.
  destruct dirErr as [err|]; [by eauto|].
  destruct Hfail as [[? [=]]|(name & Hin & Herr)].
  destruct (readConfigFiles_unreadable configPath files ∅ name Hin Herr)
    as (name' & err & Hin' & Hfile & ->).
  exists err. split; [done|]. right. by eauto.
Qed.

(** X21. A directory and a configuration map with the same entries give the
    same result: [LoadProvisionerConfigs] on the directory is
    [GetVolumeConfigFromConfigMap] on the map, the entries being visited in
    the same order by both. *)
Theorem LoadProvisionerConfigs_as_config_map
    (getConfigMap : string → string → gmap string string * option error)
    (configPath namespace name : string)
    (provisionerConfig : ProvisionerConfiguration.t) (files : list FileInfo.t)
    (data : gmap string string) :
  ioutil_ReadDir configPath = (files, None) →
  (∀ key, key ∈ configFiles files →
     (ioutil_ReadFile (path.Join [configPath; key])).2 = None) →
  getConfigMap namespace name = (data, None) →
  (∀ key,
     data !! key
     = if decide (key ∈ configFiles files)
       then Some (ioutil_ReadFile (path.Join [configPath; key])).1
       else None) →
  LoadProvisionerConfigs GOOS yaml_Unmarshal range ioutil_ReadDir
    ioutil_ReadFile configPath provisionerConfig
  = GetVolumeConfigFromConfigMap GOOS yaml_Unmarshal range getConfigMap
      namespace name provisionerConfig.
Proof.
  intros Hdir Hread Hmap Hdata.
  destruct (readConfigFiles_readable configPath files ∅ Hread)
    as (data' & Hloop & Hdata').
  unfold LoadProvisionerConfigs, GetVolumeConfigFromConfigMap.
  rewrite Hdir, Hloop, Hmap. f_equal.
  apply map_eq. intros key. rewrite Hdata', Hdata. by rewrite lookup_empty.
Qed.

(** X22. The classes of the user configuration made from a struct that
    [ConfigMapDataToVolumeConfig] returned without error are ready for
    discovery. *)
Theorem UserConfig_discovery_ready
    (range_entries : ∀ (V : Type) (m : gmap string V), range V m ≡ₚ map_to_list m)
    (data : gmap string string)
    (provisionerConfig result : ProvisionerConfiguration.t)
    (node : option Node.t) (namespace jobImage class : string)
    (config : MountConfig.t) :
  ConfigMapDataToVolumeConfig GOOS yaml_Unmarshal range data provisionerConfig
  = (result, None) →
  UserConfig.DiscoveryMap
    (UserConfigFromProvisionerConfig node namespace jobImage result) !! class
  = Some config →
  ready config.
Proof.
  intros Hret Hclass.
  destruct (ConfigMapDataToVolumeConfig_classes GOOS yaml_Unmarshal range
              range_entries data provisionerConfig result class config Hret Hclass)
    as (raw & _ & Hhost & Hmount & Hh & Hm & _ & Hmode & Hpattern & Hcmd & Hne & _).
  unfold ready. repeat split.
  - rewrite Hhost. by apply normalizePath_nonempty.
  - rewrite Hmount. by apply normalizePath_nonempty.
  - done.
  - rewrite Hpattern. by case_decide.
  - rewrite Hcmd. destruct (MountConfig.BlockCleanerCommand raw) as [[|arg command]|];
      [done|by eauto..].
Qed.
End Files.

(** ** The properties on the sample inputs *)

Lemma sampleRange_entries (V : Type) (m : gmap string V) :
  sampleRange V m ≡ₚ map_to_list m.
Proof. reflexivity. Qed.

Lemma ConfigMapDataToVolumeConfig_error_iff_witness :
  ∃ err,
    Starting (ConfigMapDataToVolumeConfig "linux" slowDecoder sampleRange
                sampleData sampleParsed)
    = FatalConfig err.
Proof.
  apply (proj1 (proj2 (ConfigMapDataToVolumeConfig_error_iff "linux"
                         slowDecoder sampleRange sampleRange_entries
                         sampleData sampleParsed))).
  right. exists "slow", rawSlow. split.
  - vm_compute. reflexivity.
  - left. reflexivity.
Defined.

(** C2 as stated fails when the decoder fails: on a value that is no YAML
    the function returns the error of the decoder, wrapped, and the start of
    the process exits on it, although every storage class of the struct, which
    the decoder has left as it was, is a valid one. *)
Lemma ConfigMapDataToVolumeConfig_decoder_failure :
  (ConfigMapDataToVolumeConfig "linux" failingDecoder sampleRange brokenData
     sampleParsed).2
  = Some (Errorf "fail to Unmarshal yaml due to: %#v"
            [ArgError (ExternalError
                         "yaml: line 2: did not find expected node content")])
  ∧ classesOf (decoded failingDecoder sampleRange brokenData sampleParsed).1
    = {[ "fast" := rawFast ]}
  ∧ ¬ misconfigured rawFast
  ∧ ¬ (is_Some (ConfigMapDataToVolumeConfig "linux" failingDecoder sampleRange
                  brokenData sampleParsed).2
       ↔ ∃ class config,
           classesOf (decoded failingDecoder sampleRange brokenData
                        sampleParsed).1 !! class = Some config
           ∧ misconfigured config).
Proof.
  assert (Hvalid : ¬ misconfigured rawFast).
  { intros [Hmount|[Hhost|[[Hmode _]|Hcommand]]]; try discriminate.
    by apply Hmode. }
  split; [reflexivity|]. split; [reflexivity|]. split; [exact Hvalid|].
  intros [Hclaim _].
  destruct Hclaim as (class & config & Hlook & Hbad); [by eexists|].
  change (({[ "fast" := rawFast ]} : gmap string MountConfig.t) !! class
          = Some config) in Hlook.
  apply lookup_singleton_Some in Hlook as [_ <-]. by apply Hvalid.
Qed.

Lemma ConfigMapDataToVolumeConfig_valid_witness :
  ∃ config,
    classesOf (decoded sampleDecoder sampleRange sampleData sampleParsed).1
      !! "fast" = Some config
    ∧ MountConfig.HostDir configuredFast
      = normalizePath "linux" (MountConfig.HostDir config).
Proof.
  destruct (ConfigMapDataToVolumeConfig_valid "linux" sampleDecoder
              sampleRange sampleRange_entries sampleData sampleParsed
              sampleConfigured "fast" configuredFast)
    as (config & Hparsed & Hhost & _).
  - vm_compute. reflexivity.
  - vm_compute. reflexivity.
  - exists config. by split.
Defined.

Lemma AccessMode_defaulted_at_creation_witness :
  ∃ mountConfig,
    classesOf (decoded sampleDecoder sampleRange sampleData sampleParsed).1
      !! "fast" = Some mountConfig
    ∧ MountConfig.AccessMode configuredFast
      = MountConfig.AccessMode mountConfig.
Proof.
  apply (proj2 (AccessMode_defaulted_at_creation "linux" sampleDecoder
                  sampleRange sampleRange_entries sampleLocalPVConfig
                  sampleData sampleParsed "fast" configuredFast)).
  vm_compute. reflexivity.
Defined.

Lemma GetVolumeMode_cases_witness :
  GetVolumeMode "linux" sampleUtil "/mnt/raw/sdb" = ("Block", None).
Proof.
  refine (proj1 (proj2 (proj1 (GetVolumeMode_cases "linux" sampleUtil
                                 "/mnt/raw/sdb") _)) _ _ eq_refl eq_refl).
  discriminate.
Defined.

Lemma ConfigMapDataToVolumeConfig_document_witness :
  insertSpaces ("fast:" +:+ LF +:+ "  hostDir: /mnt/fast")
  = String.concat ""
      ((λ line, "   " +:+ line +:+ LF)
         <$> strings.Split ("fast:" +:+ LF +:+ "  hostDir: /mnt/fast") LF).
Proof.
  exact (proj2 (proj2 (ConfigMapDataToVolumeConfig_document "linux"
                         sampleDecoder sampleRange sampleRange_entries
                         sampleData sampleParsed _))).
Defined.

Lemma IsLocalPVWithStorageClass_iff_witness :
  IsLocalPVWithStorageClass nonLocalVolume ["fast"] = false.
Proof.
  exact (proj1 (proj2 (IsLocalPVWithStorageClass_iff nonLocalVolume ["fast"] ∅))
           eq_refl).
Defined.

Lemma GenerateMountName_concat_witness :
  GenerateMountName splitEarly = GenerateMountName splitLate.
Proof.
  exact (proj2 (proj2 (GenerateMountName_concat splitEarly splitLate)) eq_refl).
Defined.


Lemma insertSpaces_inj_witness :
  "fast:" +:+ LF +:+ "  hostDir: /mnt/fast"
  = "fast:" +:+ LF +:+ "  hostDir: /mnt/fast".
Proof.
  apply (insertSpaces_inj ("fast:" +:+ LF +:+ "  hostDir: /mnt/fast")
           ("fast:" +:+ LF +:+ "  hostDir: /mnt/fast")).
  reflexivity.
Defined.

Lemma ConfigMapDataToVolumeConfig_idempotent_witness :
  ConfigMapDataToVolumeConfig "linux" configuredDecoder sampleRange sampleData
    sampleConfigured
  = (sampleConfigured, None).
Proof.
  apply (ConfigMapDataToVolumeConfig_idempotent "linux" configuredDecoder
           sampleRange sampleRange_entries sampleData sampleData
           sampleParsed sampleConfigured sampleConfigured).
  - vm_compute. reflexivity.
  - reflexivity.
Defined.

Lemma ConfigMapDataToVolumeConfig_names_witness :
  dom (classesOf (ConfigMapDataToVolumeConfig "linux" slowDecoder sampleRange
                    sampleData sampleParsed).1)
  = dom (classesOf (decoded slowDecoder sampleRange sampleData sampleParsed).1).
Proof.
  exact (ConfigMapDataToVolumeConfig_names "linux" slowDecoder sampleRange
           sampleRange_entries sampleData sampleParsed).
Defined.

Lemma ConfigMapDataToVolumeConfig_error_message_witness :
  ∃ class config,
    ({[ "slow" := rawSlow ]} : gmap string MountConfig.t) !! class = Some config
    ∧ (MountConfig.MountDir config = "" ∨ MountConfig.HostDir config = "").
Proof.
  destruct (ConfigMapDataToVolumeConfig_error_message "linux" slowDecoder
              sampleRange sampleRange_entries sampleData sampleParsed
              (ProvisionerConfiguration.set_StorageClassConfig
                 {[ "slow" := rawSlow ]} sampleParsed)
              (Errorf "Storage Class %v is misconfigured, missing HostDir or MountDir parameter"
                 [ArgString "slow"]))
    as (class & config & Hclass & [[_ [=]] | [(_ & Hdirs & _) | Hmode]]).
  - reflexivity.
  - vm_compute. reflexivity.
  - by exists class, config.
  - destruct Hmode as (_ & _ & _ & _ & _ & _ & [=]).
Defined.

Lemma ConfigMapDataToVolumeConfig_windows_dirs_witness :
  byteFree "/" (MountConfig.HostDir windowsFast)
  ∧ byteFree "/" (MountConfig.MountDir windowsFast)
  ∧ strings.HasPrefix (MountConfig.HostDir windowsFast) "\" = false
  ∧ strings.HasPrefix (MountConfig.MountDir windowsFast) "\" = false.
Proof.
  apply (ConfigMapDataToVolumeConfig_windows_dirs sampleDecoder sampleRange
           sampleRange_entries sampleData sampleParsed
           (ProvisionerConfiguration.set_StorageClassConfig
              {[ "fast" := windowsFast ]} sampleParsed)
           "fast" windowsFast).
  - vm_compute. reflexivity.
  - vm_compute. reflexivity.
Defined.

Lemma CreateLocalPVSpec_is_local_witness :
  ∃ pv,
    CreateLocalPVSpec sampleLocalPVConfig = Some pv
    ∧ (IsLocalPVWithStorageClass pv ["slow"; "fast"] = true
       ↔ "fast" ∈ ["slow"; "fast"]).
Proof.
  eexists. split; [reflexivity|].
  apply (CreateLocalPVSpec_is_local sampleLocalPVConfig). reflexivity.
Defined.

Lemma CreateLocalPVSpec_annotation_keys_witness :
  ∃ pv,
    CreateLocalPVSpec sampleLocalPVConfig = Some pv
    ∧ dom (annotationsOf pv) = {[ "pv.kubernetes.io/provisioned-by" ]}.
Proof.
  eexists. split; [reflexivity|].
  apply (CreateLocalPVSpec_annotation_keys sampleLocalPVConfig). reflexivity.
Defined.

Lemma CreateLocalPVSpec_container_path_witness :
  ∃ pv,
    CreateLocalPVSpec sampleLocalPVConfig = Some pv
    ∧ GetContainerPath pv fastConfig = Some ("/mnt/disks/vol1", None).
Proof.
  eexists. split; [reflexivity|].
  apply (CreateLocalPVSpec_container_path sampleLocalPVConfig fastConfig "vol1").
  - discriminate.
  - reflexivity.
  - vm_compute. apply not_elem_of_cons. split; [discriminate|].
    apply not_elem_of_nil.
  - reflexivity.
  - reflexivity.
Defined.

Lemma VolumeConfigToConfigMapData_keys_witness :
  ∃ data,
    VolumeConfigToConfigMapData sampleMarshal labelledParsed = (data, None)
    ∧ dom data = {[ "storageClassMap"; "useAlphaAPI" ]} ∪ {[ "nodeLabelsForPV" ]}
    ∧ data !! "useAlphaAPI" = Some ("false" +:+ LF).
Proof.
  eexists. split; [reflexivity|].
  destruct (VolumeConfigToConfigMapData_keys sampleMarshal labelledParsed _
              eq_refl) as (Hdom & _ & Hver & _).
  split; [exact Hdom | exact Hver].
Defined.

Lemma GetContainerPath_mixed_roots_witness :
  GetContainerPath (volumeAt "mnt/fast/vol1") fastConfig
  = Some ("", Some (Errorf "Could not get relative path for pv %q: %v"
                      [ArgString "local-pv-1";
                       ArgError (ExternalError
                                   "Rel: can't make mnt/fast/vol1 relative to /mnt/fast")])).
Proof.
  apply (GetContainerPath_mixed_roots (volumeAt "mnt/fast/vol1") fastConfig
           {| v1.Path := "mnt/fast/vol1"; v1.FSType := None |}).
  - reflexivity.
  - vm_compute. discriminate.
Defined.

Lemma GetContainerPath_at_host_dir_witness :
  GetContainerPath (volumeAt "/mnt/./fast/vol1/..") fastConfig
  = Some ("/mnt/disks", None).
Proof.
  apply (GetContainerPath_at_host_dir (volumeAt "/mnt/./fast/vol1/..")
           fastConfig
           {| v1.Path := "/mnt/./fast/vol1/.."; v1.FSType := None |}).
  - reflexivity.
  - vm_compute. reflexivity.
Defined.

Lemma sampleFiles_readable (name : string) :
  name ∈ configFiles sampleFiles →
  (sampleReadFile (path.Join ["/etc/provisioner/config"; name])).2 = None.
Proof. intros ->%list_elem_of_singleton. vm_compute. reflexivity. Qed.

Lemma sampleFiles_data (key : string) :
  sampleData !! key
  = if decide (key ∈ configFiles sampleFiles)
    then Some (sampleReadFile (path.Join ["/etc/provisioner/config"; key])).1
    else None.
Proof.
  case_decide as Hin.
  - apply list_elem_of_singleton in Hin as ->. vm_compute. reflexivity.
  - apply lookup_singleton_ne. intros <-. apply Hin. left.
Qed.

Lemma LoadProvisionerConfigs_files_witness :
  ∃ data,
    LoadProvisionerConfigs "linux" sampleDecoder sampleRange sampleReadDir
      sampleReadFile "/etc/provisioner/config" sampleParsed
    = ConfigMapDataToVolumeConfig "linux" sampleDecoder sampleRange data
        sampleParsed
    ∧ data !! "..data" = None
    ∧ is_Some (data !! "storageClassMap").
Proof.
  destruct (LoadProvisionerConfigs_files "linux" sampleDecoder sampleRange
              sampleReadDir sampleReadFile "/etc/provisioner/config"
              sampleParsed sampleFiles eq_refl sampleFiles_readable)
    as (data & Hload & Hdata).
  exists data. split; [exact Hload|]. rewrite !Hdata. split.
  - vm_compute. reflexivity.
  - vm_compute. by eexists.
Defined.

Lemma LoadProvisionerConfigs_read_error_witness :
  LoadProvisionerConfigs "linux" sampleDecoder sampleRange sampleReadDir
    deniedReadFile "/etc/provisioner/config" sampleParsed
  = (sampleParsed, Some (ExternalError "permission denied")).
Proof.
  destruct (LoadProvisionerConfigs_read_error "linux" sampleDecoder sampleRange
              sampleReadDir deniedReadFile "/etc/provisioner/config"
              sampleParsed sampleFiles None eq_refl)
    as (err & Hload & [[=] | (_ & name & _ & [= <-])]).
  - right. exists "storageClassMap". split.
    + vm_compute. left.
    + by eexists.
  - exact Hload.
Defined.

Lemma LoadProvisionerConfigs_as_config_map_witness :
  LoadProvisionerConfigs "linux" sampleDecoder sampleRange sampleReadDir
    sampleReadFile "/etc/provisioner/config" sampleParsed
  = GetVolumeConfigFromConfigMap "linux" sampleDecoder sampleRange sampleClient
      "kube-system" "local-provisioner-config" sampleParsed.
Proof.
  exact (LoadProvisionerConfigs_as_config_map "linux" sampleDecoder sampleRange
           sampleReadDir sampleReadFile sampleClient "/etc/provisioner/config"
           "kube-system" "local-provisioner-config" sampleParsed sampleFiles
           sampleData eq_refl sampleFiles_readable eq_refl sampleFiles_data).
Defined.

Lemma UserConfig_discovery_ready_witness : ready configuredFast.
Proof.
  apply (UserConfig_discovery_ready "linux" sampleDecoder sampleRange
           sampleRange_entries sampleData sampleParsed sampleConfigured None
           "kube-system" "registry.k8s.io/sig-storage/local-volume-provisioner"
           "fast" configuredFast).
  - vm_compute. reflexivity.
  - vm_compute. reflexivity.
Defined.
